(** * TradeCraft-AI: the strategy-graph interpreter of [backend/main.py]

    A shallow embedding of [TradingContext], [replace_variables],
    [evaluate_math], [evaluate_condition], the recursive walker
    [execute_from_node] and the request handler [run_algo], followed by
    the properties of the interpreter.

    Conventions of the embedding.
    - A Python [float] is a binary64 number of the kernel ([float], with
      its IEEE 754 operations, infinities and NaN).  The [int]s the code
      mixes with them ([0], [1], [-1]) are read as the floats of the same
      value, and a number of the JSON payload as the float that [float()]
      makes of it.
    - Python [str] is [string], read as ASCII text: the regular-expression
      classes [\s] and [\w] are the ASCII parts of Python's classes.
    - A raised exception is a result ([Raise]); mutations made before the
      raise stay in the state, as in Python.
    - Recursion and the [while] loop are driven by a fuel argument;
      [OutOfFuel] stands for a computation that has not returned yet.  The
      limit of Python's call stack is not modelled.
    - The payload is well typed: a node has an id and its data, an edge a
      source and a target, and the fields that the interpreter reads as
      text hold text or are absent.
    - What the interpreter obtains from the Python runtime and from the
      network ([str], [float] and [eval] on text, the price, news and
      sentiment providers, [random]) is a field of the record [Runtime];
      a provider sees the context, so that two requests of one run may be
      answered differently.  A log line keeps the pieces of its f-string
      instead of the formatted text. *)

From Stdlib Require Import ZArith Floats.
From Stdlib Require Import Ascii String.
From stdpp Require Import base option list strings gmap.

Local Open Scope string_scope.
Local Open Scope list_scope.

(** ** Results and exceptions *)

Inductive exn :=
| ValueError (msg : string)
| KeyError (key : string)
| TypeError (msg : string)
| ProviderError (msg : string)
| HTTPException (status_code : nat) (detail : string).

Inductive Res (A : Type) :=
| Ok (a : A)
| Raise (e : exn)
| OutOfFuel.
Arguments Ok {A} a.
Arguments Raise {A} e.
Arguments OutOfFuel {A}.

(** The outcome of a call into the Python runtime: a value, or the text of
    the exception it raised. *)
Inductive evalres (A : Type) :=
| Value (a : A)
| Error (msg : string).
Arguments Value {A} a.
Arguments Error {A} msg.

(** [str(e)] for the exceptions above ([str] of a [KeyError] is the
    [repr] of its key). *)
Definition exn_str (e : exn) : string :=
  match e with
  | ValueError msg => msg
  | KeyError key => "'" +:+ key +:+ "'"
  | TypeError msg => msg
  | ProviderError msg => msg
  | HTTPException _ detail => detail
  end.

(** ** Values *)

(** What [last_output] and the variables hold: [None], a number, or the
    text of a headline. *)
Inductive pyval :=
| PNone
| PNum (q : float)
| PStr (s : string).

(** A scalar of the JSON payload. *)
Inductive json :=
| JNull
| JNum (q : float)
| JStr (s : string).

(** ** Characters and strings *)

Definition char_in (lo hi : nat) (c : ascii) : bool :=
  (lo <=? nat_of_ascii c)%nat && (nat_of_ascii c <=? hi)%nat.

Definition is_digit (c : ascii) : bool := char_in 48 57 c.
Definition is_alpha (c : ascii) : bool := char_in 65 90 c || char_in 97 122 c.

(** [\w] on ASCII text: letters, digits and the underscore. *)
Definition is_word (c : ascii) : bool :=
  is_alpha c || is_digit c || Ascii.eqb c "_".

(** The class [[a-zA-Z0-9_\.]] of the negation and exclusive-or patterns. *)
Definition is_operand_char (c : ascii) : bool :=
  is_word c || Ascii.eqb c ".".

(** [\s], and what [str.strip()] removes, on ASCII text: tab, newline,
    vertical tab, form feed, carriage return, the four separators
    0x1c-0x1f, and the space. *)
Definition is_space (c : ascii) : bool :=
  char_in 9 13 c || char_in 28 32 c.

(** The longest prefix whose characters satisfy [p], and the rest. *)
Fixpoint span (p : ascii -> bool) (s : string) : string * string :=
  match s with
  | EmptyString => (EmptyString, EmptyString)
  | String c s' =>
      if p c then let '(a, b) := span p s' in (String c a, b)
      else (EmptyString, s)
  end.

Fixpoint string_drop (n : nat) (s : string) : string :=
  match n, s with
  | O, _ => s
  | S n', String _ s' => string_drop n' s'
  | S _, EmptyString => EmptyString
  end.

Definition string_rev (s : string) : string :=
  string_of_list_ascii (rev (list_ascii_of_string s)).

(** [s.strip()] *)
Definition strip (s : string) : string :=
  string_rev (snd (span is_space (string_rev (snd (span is_space s))))).

(** [needle in hay] *)
Fixpoint contains (needle hay : string) : bool :=
  String.prefix needle hay ||
  match hay with
  | EmptyString => false
  | String _ hay' => contains needle hay'
  end.

(** ** Regular-expression substitution

    A [matcher] tries the pattern at the head of the text and answers the
    replacement and the (positive) length of the match.  [re_sub] is
    [re.sub(pattern, repl, s)]: the text is scanned from the left, a match
    is replaced and the scan continues after it, a character at which the
    pattern does not match is copied.  [re_sub_first] is the same with
    [count=1]. *)

Definition matcher := string -> option (string * nat).

Fixpoint re_sub_from (m : matcher) (skip : nat) (s : string) : string :=
  match s with
  | EmptyString => EmptyString
  | String c s' =>
      match skip with
      | S k => re_sub_from m k s'
      | O =>
          match m s with
          | Some (repl, len) => repl +:+ re_sub_from m (pred len) s'
          | None => String c (re_sub_from m 0 s')
          end
      end
  end.

Definition re_sub (m : matcher) (s : string) : string := re_sub_from m 0 s.

Fixpoint re_sub_first (m : matcher) (s : string) : string :=
  match s with
  | EmptyString => EmptyString
  | String c s' =>
      match m s with
      | Some (repl, len) => repl +:+ string_drop len s
      | None => String c (re_sub_first m s')
      end
  end.

(** [s.replace(old, new)] for a non-empty [old]. *)
Definition m_literal (old new : string) : matcher :=
  fun s => if String.prefix old s then Some (new, String.length old) else None.

Definition str_replace (old new s : string) : string :=
  re_sub (m_literal old new) s.

(** [!\s*\(] replaced by [ not (]. *)
Definition m_not_paren : matcher :=
  fun s =>
    match s with
    | String "!" r =>
        let '(ws, rest) := span is_space r in
        match rest with
        | String "(" _ => Some (" not (", 2 + String.length ws)%nat
        | _ => None
        end
    | _ => None
    end.

(** [!([a-zA-Z0-9_\.]+)] replaced by [ not \1]. *)
Definition m_not_name : matcher :=
  fun s =>
    match s with
    | String "!" r =>
        let '(w, _) := span is_operand_char r in
        match w with
        | EmptyString => None
        | _ => Some (" not " +:+ w, 1 + String.length w)%nat
        end
    | _ => None
    end.

(** One operand of the exclusive-or pattern,
    [(\([^)]+\)|[a-zA-Z0-9_\.]+)]: a parenthesis, at least one character
    other than the closing parenthesis, and the closing parenthesis; or a
    non-empty run of operand characters.  Answers the operand and what
    follows it.  The greedy quantifiers leave no second way to match: a
    shorter run would be followed by a character of the run. *)
Definition xor_operand (s : string) : option (string * string) :=
  match s with
  | String "(" r =>
      let '(body, rest) := span (fun c => negb (Ascii.eqb c ")")) r in
      match body, rest with
      | String _ _, String ")" rest' => Some ("(" +:+ body +:+ ")", rest')
      | _, _ => None
      end
  | _ =>
      let '(w, rest) := span is_operand_char s in
      match w with
      | EmptyString => None
      | _ => Some (w, rest)
      end
  end.

(** [xor_pattern], replaced by [(bool(\1) != bool(\2))]. *)
Definition m_xor : matcher :=
  fun s =>
    match xor_operand s with
    | Some (g1, r1) =>
        let '(ws1, r2) := span is_space r1 in
        match r2 with
        | String "^" (String "^" r3) =>
            let '(ws2, r4) := span is_space r3 in
            match xor_operand r4 with
            | Some (g2, _) =>
                Some ("(bool(" +:+ g1 +:+ ") != bool(" +:+ g2 +:+ "))",
                      String.length g1 + String.length ws1 + 2
                      + String.length ws2 + String.length g2)%nat
            | None => None
            end
        | _ => None
        end
    | None => None
    end.

(** The loop [while '^^' in resolved: resolved = re.sub(xor_pattern, ...,
    resolved, count=1)].  [None]: the loop has not ended within [fuel]
    iterations. *)
Fixpoint xor_loop (fuel : nat) (resolved : string) : option string :=
  if contains "^^" resolved then
    match fuel with
    | O => None
    | S fuel' => xor_loop fuel' (re_sub_first m_xor resolved)
    end
  else Some resolved.

(** ** The execution context *)

(** A piece of an f-string: literal text or a formatted value. *)
Inductive frag :=
| Txt (s : string)
| FNum (q : float)          (* {x} of a number *)
| FNum2 (q : float)         (* {x:.2f} *)
| FBool (b : bool)
| FVal (v : pyval).

(** The line [f"[{tag}] {msg}"] that [TradingContext.log] appends. *)
Record log_line := LogLine { tag : string; msg : list frag }.

Record TradingContext := {
  vars : gmap string pyval;
  budget : float;
  holdings : gmap string float;
  logs : list log_line;
  last_output : pyval
}.

(** [TradingContext.__init__] *)
Definition TradingContext_init : TradingContext :=
  {| vars := ∅;
     budget := 0%float;
     holdings := <["BTC" := 0%float]> (<["ETH" := 0%float]> ∅);
     logs := [];
     last_output := PNone |}.

(** [TradingContext.log] *)
Definition log (t : string) (m : list frag) (c : TradingContext) : TradingContext :=
  {| vars := vars c; budget := budget c; holdings := holdings c;
     logs := logs c ++ [LogLine t m]; last_output := last_output c |}.

Definition set_last_output (v : pyval) (c : TradingContext) : TradingContext :=
  {| vars := vars c; budget := budget c; holdings := holdings c;
     logs := logs c; last_output := v |}.

Definition set_budget (b : float) (c : TradingContext) : TradingContext :=
  {| vars := vars c; budget := b; holdings := holdings c;
     logs := logs c; last_output := last_output c |}.

Definition set_holding (k : string) (q : float) (c : TradingContext) : TradingContext :=
  {| vars := vars c; budget := budget c; holdings := <[k := q]> (holdings c);
     logs := logs c; last_output := last_output c |}.

Definition set_var (k : string) (v : pyval) (c : TradingContext) : TradingContext :=
  {| vars := <[k := v]> (vars c); budget := budget c; holdings := holdings c;
     logs := logs c; last_output := last_output c |}.

(** ** The Python runtime and the external providers *)

Record Runtime := {
  (** [str(x)] of a number *)
  str_of_num : float -> string;
  (** [float(s)] of a string *)
  float_of_str : string -> evalres float;
  (** [float(eval(resolved, {"__builtins__": {}}, safe_dict))] *)
  py_eval_float : string -> evalres float;
  (** [bool(eval(resolved, {"__builtins__": {}}, {"bool": bool}))] *)
  py_eval_bool : string -> evalres bool;
  (** [float(yf.Ticker(ticker).history(period="1d")['Close'].iloc[-1])] *)
  latest_price : string -> TradingContext -> evalres float;
  (** the index [random.choice] picks in the pool of three headlines *)
  headline_index : TradingContext -> nat;
  (** the number parsed from the model's reply; [None] when there is no
      client or the request or the parse fails *)
  llm_reply : pyval -> TradingContext -> option float;
  (** [round(random.uniform(-1, 1), 2)] *)
  random_score : TradingContext -> float
}.

(** Python's two-argument [min] and [max]: the first argument unless the
    second is strictly smaller (greater). *)
Definition py_min (a b : float) : float := if (b <? a)%float then b else a.
Definition py_max (a b : float) : float := if (a <? b)%float then b else a.

Section Evaluators.
Context (W : Runtime).

Definition py_str (v : pyval) : string :=
  match v with
  | PNone => "None"
  | PNum q => str_of_num W q
  | PStr s => s
  end.

(** [\{(\w+)\}]: the name and the length of the match. *)
Definition m_var (s : string) : option (string * nat) :=
  match s with
  | String "{" r =>
      let '(name, rest) := span is_word r in
      match name, rest with
      | String _ _, String "}" _ => Some (name, 2 + String.length name)%nat
      | _, _ => None
      end
  | _ => None
  end.

(** [replace_variables]: [re.sub(r'\{(\w+)\}', replacer, expression)];
    the first name that is not a variable raises. *)
Fixpoint replace_variables_from (skip : nat) (expression : string)
    (variables : gmap string pyval) : evalres string :=
  match expression with
  | EmptyString => Value EmptyString
  | String c s' =>
      match skip with
      | S k => replace_variables_from k s' variables
      | O =>
          match m_var expression with
          | Some (var_name, len) =>
              match variables !! var_name with
              | Some v =>
                  match replace_variables_from (pred len) s' variables with
                  | Value r => Value (py_str v +:+ r)
                  | Error e => Error e
                  end
              | None => Error ("Variable '" +:+ var_name +:+ "' not found")
              end
          | None =>
              match replace_variables_from 0 s' variables with
              | Value r => Value (String c r)
              | Error e => Error e
              end
          end
      end
  end.

Definition replace_variables (expression : string)
    (variables : gmap string pyval) : evalres string :=
  replace_variables_from 0 expression variables.

(** [evaluate_math]: every exception becomes a [ValueError], whose text
    is the [Error] here. *)
Definition evaluate_math (expression : string)
    (variables : gmap string pyval) : evalres float :=
  match replace_variables expression variables with
  | Error e => Error ("Math evaluation error: " +:+ e)
  | Value resolved =>
      match py_eval_float W resolved with
      | Value result => Value result
      | Error e => Error ("Math evaluation error: " +:+ e)
      end
  end.

(** The rewriting of [evaluate_condition] up to the exclusive-or loop. *)
Definition rewrite_logical (resolved : string) : string :=
  let resolved := re_sub m_not_paren resolved in
  let resolved := re_sub m_not_name resolved in
  let resolved := str_replace "&&" " and " resolved in
  let resolved := str_replace "||" " or " resolved in
  resolved.

(** [evaluate_condition] *)
Definition evaluate_condition (fuel : nat) (condition : string)
    (variables : gmap string pyval) : Res bool :=
  match replace_variables condition variables with
  | Error e => Raise (ValueError ("Condition evaluation error: " +:+ e))
  | Value resolved =>
      match xor_loop fuel (rewrite_logical resolved) with
      | None => OutOfFuel
      | Some resolved =>
          match py_eval_bool W resolved with
          | Value result => Ok result
          | Error e => Raise (ValueError ("Condition evaluation error: " +:+ e))
          end
      end
  end.

(** [float(x or 0)] of an optional JSON scalar *)
Definition float_or_0 (x : option json) : Res float :=
  match x with
  | None | Some JNull => Ok 0%float
  | Some (JNum q) => Ok (if (q =? 0)%float then 0%float else q)
  | Some (JStr EmptyString) => Ok 0%float
  | Some (JStr s) =>
      match float_of_str W s with
      | Value q => Ok q
      | Error e => Raise (ValueError e)
      end
  end.

End Evaluators.

(** ** The graph of the request *)

Record RiskInput := { value : option json; weight : option json }.

(** [n["data"]]: a field is [None] when its key is absent. *)
Record NodeData := {
  category : option string;
  variableName : option string;
  expression : option string;
  condition : option string;
  manualValue : option json;
  ticker : option string;
  riskInputs : list RiskInput
}.

Record Node := { n_id : string; n_data : NodeData }.

Record Edge := {
  source : string;
  target : string;
  sourceHandle : option string
}.

Record Payload := { nodes : list Node; edges : list Edge }.

(** [cat == s] *)
Definition is_cat (cat : option string) (s : string) : bool :=
  match cat with
  | Some c => String.eqb c s
  | None => false
  end.

(** [handle == s] *)
Definition handle_is (handle : option string) (s : string) : bool :=
  match handle with
  | Some h => String.eqb h s
  | None => false
  end.

(** ** Dispatch of one node *)

Definition bind_res {A B : Type} (r : Res A) (k : A -> Res B) : Res B :=
  match r with
  | Ok a => k a
  | Raise e => Raise e
  | OutOfFuel => OutOfFuel
  end.

Definition news : list string :=
  [ "Market bullish on ETF news";
    "Regulatory FUD spreading";
    "Institutional whale buy detected" ].

Section Dispatch.
Context (W : Runtime).

(** The value of one risk entry: [float(ctx.vars[raw_v])] when [raw_v]
    names a variable, else [float(raw_v)], else 0. *)
Definition risk_value (variables : gmap string pyval) (raw_v : json) : Res float :=
  match raw_v with
  | JStr s =>
      match variables !! s with
      | Some (PNum q) => Ok q
      | Some (PStr t) =>
          match float_of_str W t with
          | Value q => Ok q
          | Error e => Raise (ValueError e)
          end
      | Some PNone => Raise (TypeError "float() argument must be a string or a real number")
      | None =>
          match float_of_str W s with
          | Value q => Ok q
          | Error _ => Ok 0%float
          end
      end
  | JNum q => Ok q
  | JNull => Ok 0%float
  end.

(** The loop over [risk_inputs], from the accumulators [w_sum] and
    [w_total]. *)
Fixpoint risk_loop (variables : gmap string pyval) (risk_inputs : list RiskInput)
    (w_sum w_total : float) : Res (float * float) :=
  match risk_inputs with
  | [] => Ok (w_sum, w_total)
  | item :: rest =>
      bind_res (risk_value variables (default (JStr "") (value item))) (fun val =>
      bind_res (float_or_0 W (weight item)) (fun wt =>
      risk_loop variables rest (w_sum + val * wt)%float (w_total + wt)%float))
  end.

(** [final_risk] after the clamp. *)
Definition final_risk (w_sum w_total : float) : float :=
  py_min 1 (if (0 <? w_total)%float then abs (w_sum / w_total) else 0%float).

Definition risk_analysis (variables : gmap string pyval)
    (risk_inputs : list RiskInput) : Res float :=
  bind_res (risk_loop variables risk_inputs 0 0)%float
           (fun '(w_sum, w_total) => Ok (final_risk w_sum w_total)).

(** [price = ctx.last_output if isinstance(ctx.last_output, (int, float)) else 0] *)
Definition price_of (v : pyval) : float :=
  match v with
  | PNum q => q
  | _ => 0%float
  end.

(** The branch [cat in ["BUY", "SELL"]]. *)
Definition trade (cat : option string) (data : NodeData)
    (c : TradingContext) : Res unit * TradingContext :=
  let tk := default "BTC" (ticker data) in
  match float_or_0 W (manualValue data) with
  | Raise e => (Raise e, c)
  | OutOfFuel => (OutOfFuel, c)
  | Ok amt =>
      let price := price_of (last_output c) in
      let failed :=
        (Ok tt, set_last_output PNone
                  (log "TRADE" [Txt "FAILED: Insufficient funds or holdings"] c)) in
      if is_cat cat "BUY" && (amt * price <=? budget c)%float then
        let c1 := set_budget (budget c - amt * price)%float c in
        match holdings c1 !! tk with
        | None => (Raise (KeyError tk), c1)
        | Some h =>
            (Ok tt, set_last_output PNone
               (log "TRADE" [Txt "BOUGHT "; FNum amt; Txt " "; Txt tk; Txt " @ $"; FNum2 price]
                  (set_holding tk (h + amt)%float c1)))
        end
      else if is_cat cat "SELL" then
        match holdings c !! tk with
        | None => (Raise (KeyError tk), c)
        | Some h =>
            if (amt <=? h)%float then
              (Ok tt, set_last_output PNone
                 (log "TRADE" [Txt "SOLD "; FNum amt; Txt " "; Txt tk; Txt " @ $"; FNum2 price]
                    (set_holding tk (h - amt)%float
                       (set_budget (budget c + amt * price)%float c))))
            else failed
        end
      else failed
  end.

(** The [if]/[elif] chain of [execute_from_node] for every category but
    CONDITION (whose branch recurses and is part of the walker). *)
Definition dispatch (cat : option string) (data : NodeData)
    (c : TradingContext) : Res unit * TradingContext :=
  if is_cat cat "START" then
    (Ok tt, set_last_output PNone (log "START" [Txt "Engine Ignited."] c))
  else if is_cat cat "VARIABLE" then
    let var_name := strip (default "" (variableName data)) in
    match var_name, last_output c with
    | String _ _, (PNum _ | PStr _) =>
        (Ok tt, set_last_output PNone
           (log "VARIABLE" [Txt "Stored '"; Txt var_name; Txt "' = "; FVal (last_output c)]
              (set_var var_name (last_output c) c)))
    | EmptyString, _ =>
        (Ok tt, set_last_output PNone
           (log "VARIABLE" [Txt "WARNING: No variable name specified!"] c))
    | String _ _, PNone =>
        (Ok tt, set_last_output PNone
           (log "VARIABLE" [Txt "WARNING: No data to store in '"; Txt var_name; Txt "'"] c))
    end
  else if is_cat cat "MATH" then
    let expr := strip (default "" (expression data)) in
    match expr with
    | String _ _ =>
        match evaluate_math W expr (vars c) with
        | Value result =>
            (Ok tt, set_last_output (PNum result)
               (log "MATH" [Txt "Calculated: "; Txt expr; Txt " = "; FNum result] c))
        | Error e =>
            (Ok tt, set_last_output (PNum 0%float) (log "MATH" [Txt "ERROR: "; Txt e] c))
        end
    | EmptyString =>
        (Ok tt, set_last_output (PNum 0%float)
           (log "MATH" [Txt "WARNING: No expression provided"] c))
    end
  else if is_cat cat "SET_BUDGET" then
    match float_or_0 W (manualValue data) with
    | Ok b =>
        let c1 := set_budget b c in
        (Ok tt, set_last_output (PNum b)
           (log "WALLET" [Txt "Budget locked at $"; FNum b] c1))
    | Raise e => (Raise e, c)
    | OutOfFuel => (OutOfFuel, c)
    end
  else if is_cat cat "SCRAPE_BTC" || is_cat cat "SCRAPE_ETH" then
    let tk := if contains "BTC" (default "" cat) then "BTC-USD" else "ETH-USD" in
    match latest_price W tk c with
    | Value price_val =>
        (Ok tt, set_last_output (PNum price_val)
           (log "SCRAPE" [Txt tk; Txt ": $"; FNum2 price_val] c))
    | Error e => (Raise (ProviderError e), c)
    end
  else if is_cat cat "NEWS_SCRAPER" then
    let selected_news := nth (headline_index W c mod 3) news "" in
    (Ok tt, set_last_output (PStr selected_news)
       (log "NEWS" [Txt "Scraped: "; Txt selected_news] c))
  else if is_cat cat "SEND_TO_LLM" then
    let input_var := default "" (variableName data) in
    let input_txt := default (PStr "neutral") (vars c !! input_var) in
    let score :=
      match llm_reply W input_txt c with
      | Some score => py_max (-1) (py_min 1 score)%float
      | None => random_score W c
      end in
    (Ok tt, set_last_output (PNum score)
       (log "GEMINI" [Txt "Sentiment: "; FNum2 score] c))
  else if is_cat cat "RISK_ANALYSIS" then
    match risk_analysis (vars c) (riskInputs data) with
    | Ok r =>
        (Ok tt, set_last_output (PNum r)
           (log "RISK" [Txt "Weighted Risk Score: "; FNum2 r] c))
    | Raise e => (Raise e, c)
    | OutOfFuel => (OutOfFuel, c)
    end
  else if is_cat cat "BUY" || is_cat cat "SELL" then
    trade cat data c
  else if is_cat cat "OUTPUT" then
    let var_name := default "" (variableName data) in
    let v := default (PStr "NULL") (vars c !! var_name) in
    (Ok tt, set_last_output PNone
       (log "OUTPUT" [Txt var_name; Txt " => "; FVal v] c))
  else (Ok tt, c).

End Dispatch.

(** ** The walker *)

(** The state a walk threads: the context of the run and the [visited]
    set of the walk, both mutated in place by the Python code. *)
Record St := { ctx : TradingContext; visited : gset string }.

Definition log_st (t : string) (m : list frag) (st : St) : St :=
  {| ctx := log t m (ctx st); visited := visited st |}.

(** A [for] loop whose body may raise: the first result that is not [Ok]
    ends the loop. *)
Fixpoint for_each {A : Type} (body : A -> St -> Res unit * St)
    (l : list A) (st : St) : Res unit * St :=
  match l with
  | [] => (Ok tt, st)
  | x :: l' =>
      match body x st with
      | (Ok _, st') => for_each body l' st'
      | (r, st') => (r, st')
      end
  end.

Section Walker.
Context (W : Runtime) (nodes : list Node) (edges : list Edge).

(** [node_map = {n["id"]: n for n in nodes}]: a later node with the same
    id replaces an earlier one. *)
Definition node_map : gmap string Node :=
  foldl (fun m n => <[n_id n := n]> m) ∅ nodes.

(** [[e["target"] for e in edges if e["source"] == node_id]] *)
Definition outgoing (node_id : string) : list string :=
  map target (filter (fun e => source e = node_id) edges).

(** [[(e["target"], e.get("sourceHandle")) for e in edges if e["source"] == node_id]] *)
Definition outgoing_handles (node_id : string) : list (string * option string) :=
  map (fun e => (target e, sourceHandle e)) (filter (fun e => source e = node_id) edges).

(** The body of the loop over the outgoing edges of a CONDITION node. *)
Definition branch (exec : string -> St -> Res unit * St) (result : bool)
    (th : string * option string) (st : St) : Res unit * St :=
  let '(target_id, handle) := th in
  if result && handle_is handle "yes" then exec target_id st
  else if negb result && handle_is handle "no" then exec target_id st
  else (Ok tt, st).

(** The body of [execute_from_node(node_id, visited)], with [exec] for
    its recursive calls and [fuel'] for the loop of the condition
    evaluator. *)
Definition visit (exec : string -> St -> Res unit * St) (fuel' : nat)
    (node_id : string) (st : St) : Res unit * St :=
  if decide (node_id ∈ visited st) then (Ok tt, st)
  else
    let st := {| ctx := ctx st; visited := {[node_id]} ∪ visited st |} in
    match node_map !! node_id with
    | None => (Raise (KeyError node_id), st)
    | Some n =>
        let data := n_data n in
        let cat := category data in
        if is_cat cat "CONDITION" then
          let cond := strip (default "" (condition data)) in
          match cond with
          | String _ _ =>
              let on_error e st :=
                (Ok tt, log_st "CONDITION" [Txt "ERROR: "; Txt (exn_str e)] st) in
              match evaluate_condition W fuel' cond (vars (ctx st)) with
              | Ok result =>
                  let st1 :=
                    log_st "CONDITION"
                      [Txt "Evaluated: "; Txt cond; Txt " = "; FBool result] st in
                  match for_each (branch exec result) (outgoing_handles node_id) st1 with
                  | (Ok _, st2) => (Ok tt, st2)
                  | (Raise e, st2) => on_error e st2
                  | (OutOfFuel, st2) => (OutOfFuel, st2)
                  end
              | Raise e => on_error e st
              | OutOfFuel => (OutOfFuel, st)
              end
          | EmptyString =>
              (Ok tt, log_st "CONDITION" [Txt "WARNING: No condition provided"] st)
          end
        else
          match dispatch W cat data (ctx st) with
          | (Ok _, c) =>
              for_each exec (outgoing node_id) {| ctx := c; visited := visited st |}
          | (r, c) => (r, {| ctx := c; visited := visited st |})
          end
    end.

(** [execute_from_node(node_id, visited)] *)
Fixpoint execute_from_node (fuel : nat) (node_id : string) (st : St)
    : Res unit * St :=
  match fuel with
  | O => (OutOfFuel, st)
  | S fuel' => visit (execute_from_node fuel') fuel' node_id st
  end.

(** The call [execute_from_node(start_id)] of [run_algo]: [visited] is
    [None], so the walk starts with a set of its own. *)
Definition execute_top (fuel : nat) (start_id : string) (c : TradingContext)
    : Res unit * TradingContext :=
  let '(r, st) := execute_from_node fuel start_id {| ctx := c; visited := ∅ |} in
  (r, ctx st).

(** [for start_id in start_nodes: execute_from_node(start_id)] *)
Fixpoint run_starts (fuel : nat) (start_nodes : list string) (c : TradingContext)
    : Res unit * TradingContext :=
  match start_nodes with
  | [] => (Ok tt, c)
  | start_id :: rest =>
      match execute_top fuel start_id c with
      | (Ok _, c') => run_starts fuel rest c'
      | (r, c') => (r, c')
      end
  end.

End Walker.

(** ** The request handler *)

Record Response := {
  r_logs : list log_line;
  final_budget : float;
  final_holdings : gmap string float;
  variables : gmap string pyval
}.

(** [[n["id"] for n in nodes if n["data"].get("category") == "START"]] *)
Definition start_nodes (ns : list Node) : list string :=
  map n_id (filter (fun n => is_cat (category (n_data n)) "START" = true) ns).

(** [run_algo]: the result of the request and the context the run leaves
    behind.  The graph [G] that the handler builds is never read, and its
    construction does not fail on ids that are strings. *)
Definition run_algo (W : Runtime) (fuel : nat) (payload : Payload)
    : Res Response * TradingContext :=
  let c := TradingContext_init in
  match start_nodes (nodes payload) with
  | [] => (Raise (HTTPException 400 "No START node found!"), c)
  | starts =>
      match run_starts W (nodes payload) (edges payload) fuel starts c with
      | (Ok _, c') =>
          (Ok {| r_logs := logs c'; final_budget := budget c';
                 final_holdings := holdings c'; variables := vars c' |}, c')
      | (Raise e, c') => (Raise e, c')
      | (OutOfFuel, c') => (OutOfFuel, c')
      end
  end.

(** ** A runtime for concrete runs

    The process has no API key and no network: there is no LLM client and
    the price request fails.  [eval] is a table of CPython's answers on the
    few texts that the concrete runs below evaluate (every other text is
    answered by an error, which no run below relies on); [float] reads the
    plain decimal literals [[+-]digits[.digits]] (correctly rounded while
    the digits make a number below 2^53, since the division of two exact
    floats is) and refuses every other text; no run below prints a number
    into an expression, so [str] of a number is a placeholder. *)

Fixpoint digits_value (acc : float) (s : string) : option float :=
  match s with
  | EmptyString => Some acc
  | String c s' =>
      if is_digit c then
        digits_value (acc * 10 + of_uint63 (Uint63.of_Z (Z.of_nat (nat_of_ascii c - 48))))%float s'
      else None
  end.

Fixpoint pow10 (n : nat) : float :=
  match n with
  | O => 1%float
  | S n' => (10 * pow10 n')%float
  end.

Definition unsigned_literal (s : string) : option float :=
  let '(int_part, rest) := span is_digit s in
  match int_part, rest with
  | String _ _, EmptyString => digits_value 0 int_part
  | String _ _, String "." (String d frac) =>
      match digits_value 0 (int_part +:+ String d frac) with
      | Some n => Some (n / pow10 (String.length (String d frac)))%float
      | None => None
      end
  | _, _ => None
  end.

Definition decimal_literal (s : string) : evalres float :=
  let r :=
    match s with
    | String "-" s' => option_map opp (unsigned_literal s')
    | String "+" s' => unsigned_literal s'
    | _ => unsigned_literal s
    end in
  match r with
  | Some x => Value x
  | None => Error ("could not convert string to float: '" +:+ s +:+ "'")
  end.

Definition eval_float_table (resolved : string) : evalres float :=
  if String.eqb resolved "10" then Value 10%float
  else Error "not in the table".

Definition eval_bool_table (resolved : string) : evalres bool :=
  if String.eqb resolved "True" then Value true
  else if String.eqb resolved "False" then Value false
  else Error "not in the table".

Definition offline : Runtime :=
  {| str_of_num := fun _ => "0.0";
     float_of_str := decimal_literal;
     py_eval_float := eval_float_table;
     py_eval_bool := eval_bool_table;
     latest_price := fun _ _ => Error "No data found";
     headline_index := fun _ => 0%nat;
     llm_reply := fun _ _ => None;
     random_score := fun _ => 0%float |}.

(** ** Relations between the states of a walk *)

(** [st'] comes after [st]: nothing leaves [visited], and the log has only
    been appended to. *)
Definition extends (st st' : St) : Prop :=
  visited st ⊆ visited st' /\ exists l, logs (ctx st') = logs (ctx st) ++ l.

(** The lines of a log that carry the tag [t]. *)
Definition tagged (t : string) (l : list log_line) : list log_line :=
  filter (fun ln => tag ln = t) l.

(** [exec'] returns whatever [exec] returns, when that is a result. *)
Definition at_least {A : Type} (exec exec' : A -> St -> Res unit * St) : Prop :=
  forall x st r st', exec x st = (r, st') -> r <> OutOfFuel -> exec' x st = (r, st').

(** ** Graphs of the concrete runs *)

Definition plain (cat : string) : NodeData :=
  {| category := Some cat; variableName := None; expression := None;
     condition := None; manualValue := None; ticker := None; riskInputs := [] |}.

Definition output_of (var_name : string) : NodeData :=
  {| category := Some "OUTPUT"; variableName := Some var_name; expression := None;
     condition := None; manualValue := None; ticker := None; riskInputs := [] |}.

Definition math_of (expr : string) : NodeData :=
  {| category := Some "MATH"; variableName := None; expression := Some expr;
     condition := None; manualValue := None; ticker := None; riskInputs := [] |}.

Definition condition_of (cond : string) : NodeData :=
  {| category := Some "CONDITION"; variableName := None; expression := None;
     condition := Some cond; manualValue := None; ticker := None; riskInputs := [] |}.

Definition budget_of (amount : float) : NodeData :=
  {| category := Some "SET_BUDGET"; variableName := None; expression := None;
     condition := None; manualValue := Some (JNum amount); ticker := None;
     riskInputs := [] |}.

Definition trade_of (cat tk : string) (amount : float) : NodeData :=
  {| category := Some cat; variableName := None; expression := None;
     condition := None; manualValue := Some (JNum amount); ticker := Some tk;
     riskInputs := [] |}.

Definition risk_of (inputs : list RiskInput) : NodeData :=
  {| category := Some "RISK_ANALYSIS"; variableName := None; expression := None;
     condition := None; manualValue := None; ticker := None; riskInputs := inputs |}.

Definition edge (a b : string) : Edge :=
  {| source := a; target := b; sourceHandle := None |}.

Definition edge_on (h a b : string) : Edge :=
  {| source := a; target := b; sourceHandle := Some h |}.

Definition start_line : log_line := LogLine "START" [Txt "Engine Ignited."].

(** Two START nodes with the common successor [x]. *)
Definition two_starts : Payload :=
  {| nodes := [ Build_Node "s1" (plain "START"); Build_Node "s2" (plain "START");
                Build_Node "x" (output_of "total") ];
     edges := [ edge "s1" "x"; edge "s2" "x" ] |}.

(** The diamond A->B, A->C, B->D, C->D: A starts, B sets the budget to
    100, C sets it to 10, D buys one BTC at the price it is handed (the
    budget that was set last). *)
Definition diamond_nodes : list Node :=
  [ Build_Node "A" (plain "START"); Build_Node "B" (budget_of 100);
    Build_Node "C" (budget_of 10); Build_Node "D" (trade_of "BUY" "BTC" 1) ].

Definition diamond_edges : list Edge :=
  [ edge "A" "B"; edge "A" "C"; edge "B" "D"; edge "C" "D" ].

(** The same diamond in which B is a START node too. *)
Definition diamond_two_starts : Payload :=
  {| nodes := [ Build_Node "A" (plain "START"); Build_Node "B" (plain "START");
                Build_Node "C" (output_of "c"); Build_Node "D" (output_of "d") ];
     edges := diamond_edges |}.

(** START, then a BUY of -1 BTC. *)
Definition negative_buy : Payload :=
  {| nodes := [ Build_Node "s" (plain "START");
                Build_Node "t" (trade_of "BUY" "BTC" (-1)) ];
     edges := [ edge "s" "t" ] |}.

(** START, a budget of 10, then a SELL of -2 BTC at the price 10. *)
Definition negative_sell : Payload :=
  {| nodes := [ Build_Node "s" (plain "START"); Build_Node "b" (budget_of 10);
                Build_Node "t" (trade_of "SELL" "BTC" (-2)) ];
     edges := [ edge "s" "b"; edge "b" "t" ] |}.

(** START, a budget of 100, a BUY of 1 DOGE at the price 100, an OUTPUT. *)
Definition buy_doge : Payload :=
  {| nodes := [ Build_Node "s" (plain "START"); Build_Node "b" (budget_of 100);
                Build_Node "t" (trade_of "BUY" "DOGE" 1);
                Build_Node "o" (output_of "total") ];
     edges := [ edge "s" "b"; edge "b" "t"; edge "t" "o" ] |}.

(** START, a condition that holds, and on its [yes] edge a SELL of 1
    DOGE; a second node follows the START. *)
Definition guarded_sell_doge : Payload :=
  {| nodes := [ Build_Node "s" (plain "START"); Build_Node "c" (condition_of "True");
                Build_Node "t" (trade_of "SELL" "DOGE" 1);
                Build_Node "o" (output_of "total") ];
     edges := [ edge "s" "c"; edge_on "yes" "c" "t"; edge "s" "o" ] |}.

(** START and directly a SELL of 1 DOGE, then the OUTPUT. *)
Definition sell_doge : Payload :=
  {| nodes := [ Build_Node "s" (plain "START");
                Build_Node "t" (trade_of "SELL" "DOGE" 1);
                Build_Node "o" (output_of "total") ];
     edges := [ edge "s" "t"; edge "s" "o" ] |}.

(** ** The edges a CONDITION node follows *)

(** The edge carries the handle that names the result: ["yes"] for true,
    ["no"] for false. *)
Definition picks (result : bool) (e : Edge) : Prop :=
  sourceHandle e = Some (if result then "yes" else "no").

#[global] Instance picks_dec (result : bool) (e : Edge) : Decision (picks result e).
Proof. unfold picks. apply _. Defined.

(** The targets of the edges that leave [node_id] with that handle, in the
    order of the edge list. *)
Definition selected (edges : list Edge) (node_id : string) (result : bool) : list string :=
  map target (filter (fun e => source e = node_id /\ picks result e) edges).

(** A condition with a [yes] and a [no] successor, and an edge without a
    handle. *)
Definition fork_nodes : list Node :=
  [ Build_Node "c" (condition_of "True"); Build_Node "y" (output_of "yes_side");
    Build_Node "z" (output_of "no_side"); Build_Node "u" (output_of "unlabelled") ].

Definition fork_edges : list Edge :=
  [ edge_on "no" "c" "z"; edge_on "yes" "c" "y"; edge "c" "u" ].

(** A MATH node that names a variable nobody has stored, and its two
    successors. *)
Definition bad_math_nodes : list Node :=
  [ Build_Node "m" (math_of "{z} + 1"); Build_Node "p" (output_of "first");
    Build_Node "q" (output_of "second") ].

Definition bad_math_edges : list Edge := [ edge "m" "p"; edge "m" "q" ].

(** The state at the start of a walk from the fresh context. *)
Definition fresh : St := {| ctx := TradingContext_init; visited := ∅ |}.

Definition variable_of (var_name : string) : NodeData :=
  {| category := Some "VARIABLE"; variableName := Some var_name; expression := None;
     condition := None; manualValue := None; ticker := None; riskInputs := [] |}.

(** START, a budget of 1 stored as the variable [r1], the risk of the
    given inputs stored as the variable [risk]. *)
Definition risk_run (inputs : list RiskInput) : Payload :=
  {| nodes := [ Build_Node "s" (plain "START"); Build_Node "b" (budget_of 1);
                Build_Node "v" (variable_of "r1"); Build_Node "k" (risk_of inputs);
                Build_Node "w" (variable_of "risk") ];
     edges := [ edge "s" "b"; edge "b" "v"; edge "v" "k"; edge "k" "w" ] |}.

(** [[{value: "r1", weight: 2}, {value: "0.5", weight: 1}]] *)
Definition spec_inputs : list RiskInput :=
  [ {| value := Some (JStr "r1"); weight := Some (JNum 2) |};
    {| value := Some (JStr "0.5"); weight := Some (JNum 1) |} ].

(** [variables = {r1: 1.0}] *)
Definition r1_is_one : gmap string pyval := <["r1" := PNum 1]> ∅.

(** [[{value: "r1", weight: -1}]] *)
Definition negative_weight_inputs : list RiskInput :=
  [ {| value := Some (JStr "r1"); weight := Some (JNum (-1)) |} ].

(** ** The risk score in the words of the specification *)

Section RiskSpec.
Context (W : Runtime).

(** The value and the weight of one entry. *)
Definition resolve_entry (variables : gmap string pyval) (item : RiskInput)
    : Res (float * float) :=
  bind_res (risk_value W variables (default (JStr "") (value item))) (fun val =>
  bind_res (float_or_0 W (weight item)) (fun wt => Ok (val, wt))).

Fixpoint resolve_entries (variables : gmap string pyval) (items : list RiskInput)
    : Res (list (float * float)) :=
  match items with
  | [] => Ok []
  | item :: rest =>
      bind_res (resolve_entry variables item) (fun p =>
      bind_res (resolve_entries variables rest) (fun ps => Ok (p :: ps)))
  end.

End RiskSpec.

(** The weighted sum and the weight total, accumulated from the left. *)
Definition weighted_sum_from (acc : float) (ps : list (float * float)) : float :=
  fold_left (fun a p => (a + fst p * snd p)%float) ps acc.

Definition weight_total_from (acc : float) (ps : list (float * float)) : float :=
  fold_left (fun a p => (a + snd p)%float) ps acc.

Definition weighted_sum (ps : list (float * float)) : float := weighted_sum_from 0 ps.
Definition weight_total (ps : list (float * float)) : float := weight_total_from 0 ps.

(** START, then a CONDITION node with a chained exclusive-or. *)
Definition chained_xor_run : Payload :=
  {| nodes := [ Build_Node "s" (plain "START");
                Build_Node "c" (condition_of "a ^^ b ^^ c") ];
     edges := [ edge "s" "c" ] |}.

(** START, a budget of 100, the price 10 computed by a MATH node, and a
    BUY of 2 BTC at that price. *)
Definition priced_buy : Payload :=
  {| nodes := [ Build_Node "s" (plain "START"); Build_Node "b" (budget_of 100);
                Build_Node "m" (math_of "10"); Build_Node "t" (trade_of "BUY" "BTC" 2) ];
     edges := [ edge "s" "b"; edge "b" "m"; edge "m" "t" ] |}.

(** ** Texts without the character [^] *)

Definition no_caret (s : string) : bool :=
  forallb (fun c => negb (Ascii.eqb c "^")) (list_ascii_of_string s).

(** The nodes of the graph that a walk has not visited yet. *)
Definition unvisited (ns : list Node) (st : St) : nat :=
  size (dom (node_map ns) ∖ visited st).

(** A VARIABLE node that stores under a name typed with spaces around it,
    and an OUTPUT node that names the variable the same way. *)
Definition padded_name : string := " x ".

(** The context in which the previous node has left the number 7. *)
Definition holding_seven : TradingContext := set_last_output (PNum 7) TradingContext_init.

(** The categories that [execute_from_node] handles outside the CONDITION
    branch. *)
Definition dispatched_category (cat : option string) : bool :=
  existsb (is_cat cat)
    [ "START"; "VARIABLE"; "MATH"; "SET_BUDGET"; "SCRAPE_BTC"; "SCRAPE_ETH";
      "NEWS_SCRAPER"; "SEND_TO_LLM"; "RISK_ANALYSIS"; "BUY"; "SELL"; "OUTPUT" ].

(** The categories whose dispatch can raise. *)
Definition raising_category (cat : option string) : bool :=
  existsb (is_cat cat)
    [ "SET_BUDGET"; "SCRAPE_BTC"; "SCRAPE_ETH"; "RISK_ANALYSIS"; "BUY"; "SELL" ].

(** Two nodes with the id [a]: a START node, then a MATH node. *)
Definition clashing_ids : list Node :=
  [ Build_Node "a" (plain "START"); Build_Node "a" (math_of "10") ].

(** Every character of the text satisfies [p]. *)
Definition all_chars (p : ascii -> bool) (s : string) : bool :=
  forallb p (list_ascii_of_string s).

(** The offline runtime with an LLM client whose reply parses to [x]. *)
Definition replying (x : float) : Runtime :=
  {| str_of_num := str_of_num offline;
     float_of_str := float_of_str offline;
     py_eval_float := py_eval_float offline;
     py_eval_bool := py_eval_bool offline;
     latest_price := latest_price offline;
     headline_index := headline_index offline;
     llm_reply := fun _ _ => Some x;
     random_score := random_score offline |}.

(** The context in which the variable [mood] holds a headline. *)
Definition mood_is_headline : TradingContext :=
  set_var "mood" (PStr "Market bullish on ETF news") TradingContext_init.

(** ** Reachability along the edges *)

(** [b] is the target of an edge that leaves [a]. *)
Definition edge_to (es : list Edge) (a b : string) : Prop := In b (outgoing es a).

(** [b] is reached from [a] by following edges (none, one or several). *)
Definition reaches (es : list Edge) : string -> string -> Prop := rtc (edge_to es).

(** A chain A -> B -> C with an edge back from C to A, and a node D that
    no edge leads to. *)
Definition cycle_nodes : list Node :=
  [ Build_Node "A" (plain "START"); Build_Node "B" (output_of "b");
    Build_Node "C" (output_of "c"); Build_Node "D" (output_of "d") ].

Definition cycle_edges : list Edge :=
  [ edge "A" "B"; edge "B" "C"; edge "C" "A"; edge "D" "A" ].

(** The categories that leave [last_output] empty, and those that leave a
    number in it. *)
Definition clears_output (cat : option string) : bool :=
  existsb (is_cat cat) [ "START"; "VARIABLE"; "BUY"; "SELL"; "OUTPUT" ].

Definition yields_number (cat : option string) : bool :=
  existsb (is_cat cat)
    [ "MATH"; "SET_BUDGET"; "SCRAPE_BTC"; "SCRAPE_ETH"; "SEND_TO_LLM"; "RISK_ANALYSIS" ].

(** What a VARIABLE node can store: [last_output] holds a number after
    MATH, SET_BUDGET, SCRAPE_BTC, SCRAPE_ETH, SEND_TO_LLM and
    RISK_ANALYSIS, and one of the three headlines after NEWS_SCRAPER. *)
Definition storable (v : pyval) : Prop :=
  (exists x, v = PNum x) \/ (exists s, v = PStr s /\ In s news).

Definition storable_vars (vs : gmap string pyval) : Prop :=
  forall name v, vs !! name = Some v -> storable v.

(** The contexts of a run: the variables hold what a VARIABLE node can
    store, and [last_output] is empty or holds such a value. *)
Definition run_context (c : TradingContext) : Prop :=
  storable_vars (vars c) /\ (last_output c = PNone \/ storable (last_output c)).

(** START, a budget stored as [price], and a condition that reads the
    variable in an exclusive-or. *)
Definition priced_xor : Payload :=
  {| nodes := [ Build_Node "s" (plain "START"); Build_Node "b" (budget_of 100);
                Build_Node "v" (variable_of "price");
                Build_Node "c" (condition_of "{price} ^^ limit");
                Build_Node "o" (output_of "price") ];
     edges := [ edge "s" "b"; edge "b" "v"; edge "v" "c"; edge_on "yes" "c" "o" ] |}.

(** * Properties *)

(** ** The exclusive-or loop of [evaluate_condition] *)

Lemma xor_loop_step (fuel : nat) (s : string) :
  contains "^^" s = true ->
  xor_loop (S fuel) s = xor_loop fuel (re_sub_first m_xor s).
Proof. intros H. simpl. now rewrite H. Qed.

Lemma xor_loop_done (fuel : nat) (s : string) :
  contains "^^" s = false -> xor_loop fuel s = Some s.
Proof. intros H. destruct fuel; simpl; now rewrite H. Qed.

(** A text that still holds [^^] and that the substitution leaves as it is
    keeps the loop running for ever. *)
Lemma xor_loop_stuck (s : string) :
  contains "^^" s = true ->
  re_sub_first m_xor s = s ->
  forall fuel, xor_loop fuel s = None.
Proof.
  intros Hc Hfix fuel.
  induction fuel as [|fuel IH].
  - simpl. now rewrite Hc.
  - rewrite xor_loop_step by exact Hc. now rewrite Hfix.
Qed.

(** The loop adds nothing once it has ended: more fuel, same text. *)
Lemma xor_loop_mono (fuel : nat) (s r : string) :
  xor_loop fuel s = Some r -> xor_loop (S fuel) s = Some r.
Proof.
  revert s. induction fuel as [|fuel IH]; intros s H.
  - simpl in H. destruct (contains "^^" s) eqn:Hc; [discriminate|].
    now rewrite xor_loop_done.
  - destruct (contains "^^" s) eqn:Hc.
    + rewrite xor_loop_step in H by exact Hc.
      rewrite xor_loop_step by exact Hc. now apply IH.
    + rewrite xor_loop_done in H by exact Hc. now rewrite xor_loop_done.
Qed.

Example xor_single :
  xor_loop 1 "a ^^ b" = Some "(bool(a) != bool(b))".
Proof. reflexivity. Qed.

Example xor_chained_first_rewrite :
  re_sub_first m_xor "a ^^ b ^^ c" = "(bool(a) != bool(b)) ^^ c".
Proof. reflexivity. Qed.

Example xor_chained_second_rewrite :
  re_sub_first m_xor "(bool(a) != bool(b)) ^^ c" = "(bool(a) != bool(b)) ^^ c".
Proof. reflexivity. Qed.

Lemma xor_loop_chained (fuel : nat) : xor_loop fuel "a ^^ b ^^ c" = None.
Proof.
  destruct fuel as [|fuel]; [reflexivity|].
  rewrite xor_loop_step by reflexivity.
  change (re_sub_first m_xor "a ^^ b ^^ c") with "(bool(a) != bool(b)) ^^ c".
  now rewrite xor_loop_stuck.
Qed.

(** ** A graph without a START node *)

Lemma start_nodes_none (ns : list Node) :
  (forall n, In n ns -> category (n_data n) <> Some "START") ->
  start_nodes ns = [].
Proof.
  intros H. unfold start_nodes.
  induction ns as [|n ns IH]; [reflexivity|].
  rewrite filter_cons.
  destruct (decide (is_cat (category (n_data n)) "START" = true)) as [Hc|Hc].
  - exfalso. apply (H n); [now left|].
    unfold is_cat in Hc. destruct (category (n_data n)) as [c|]; [|discriminate].
    apply String.eqb_eq in Hc. now subst.
  - apply IH. intros m Hm. apply H. now right.
Qed.

(** C9.  When no node has the category START, [run_algo] raises the
    client error 400 before any walk: the result is the exception, and
    the context is the one [TradingContext()] built, with an empty log, a
    budget of 0, holdings of 0 BTC and 0 ETH and no variable. *)
Theorem run_algo_without_start_is_rejected :
  forall (W : Runtime) (fuel : nat) (payload : Payload),
    (forall n, In n (nodes payload) -> category (n_data n) <> Some "START") ->
    run_algo W fuel payload =
      (Raise (HTTPException 400 "No START node found!"), TradingContext_init)
    /\ logs TradingContext_init = []
    /\ budget TradingContext_init = 0%float
    /\ holdings TradingContext_init = <["BTC" := 0%float]> (<["ETH" := 0%float]> ∅)
    /\ vars TradingContext_init = ∅.
Proof.
  intros W fuel payload H. split; [|repeat split].
  unfold run_algo. now rewrite (start_nodes_none _ H).
Qed.

Lemma run_algo_without_start_is_rejected_witness :
  run_algo offline 3 {| nodes := bad_math_nodes; edges := bad_math_edges |} =
    (Raise (HTTPException 400 "No START node found!"), TradingContext_init).
Proof.
  apply (run_algo_without_start_is_rejected offline 3
           {| nodes := bad_math_nodes; edges := bad_math_edges |}).
  intros n [<-|[<-|[<-|[]]]]; discriminate.
Defined.

(** ** Loops *)

Lemma for_each_cons {A : Type} (body : A -> St -> Res unit * St) (x : A) (l : list A) (st : St) :
  for_each body (x :: l) st =
    match body x st with
    | (Ok _, st') => for_each body l st'
    | (r, st') => (r, st')
    end.
Proof. reflexivity. Qed.

(** A relation that every iteration respects is respected by the loop. *)
Lemma for_each_preserves {A : Type} (R : St -> St -> Prop)
    (body : A -> St -> Res unit * St) :
  (forall st, R st st) ->
  (forall a b c, R a b -> R b c -> R a c) ->
  (forall x st r st', body x st = (r, st') -> R st st') ->
  forall l st r st', for_each body l st = (r, st') -> R st st'.
Proof.
  intros Hrefl Htrans Hbody l.
  induction l as [|x l IH]; intros st r st' H; simpl in H.
  - inversion H; subst. apply Hrefl.
  - destruct (body x st) as [r1 st1] eqn:Hx.
    pose proof (Hbody _ _ _ _ Hx) as H1.
    destruct r1 as [[]|e|].
    + eapply Htrans; [exact H1|]. eapply IH; exact H.
    + inversion H; subst. exact H1.
    + inversion H; subst. exact H1.
Qed.

Lemma extends_refl (st : St) : extends st st.
Proof. split; [set_solver|]. exists []. now rewrite app_nil_r. Qed.

Lemma extends_trans (a b c : St) : extends a b -> extends b c -> extends a c.
Proof.
  intros [Hv1 [l1 Hl1]] [Hv2 [l2 Hl2]]. split; [set_solver|].
  exists (l1 ++ l2). now rewrite Hl2, Hl1, app_assoc.
Qed.

Lemma extends_log (t : string) (m : list frag) (st : St) : extends st (log_st t m st).
Proof. split; [set_solver|]. now exists [LogLine t m]. Qed.

(** ** Dispatch only appends to the log *)

Lemma trade_logs (W : Runtime) (cat : option string) (data : NodeData)
    (c c' : TradingContext) (r : Res unit) :
  trade W cat data c = (r, c') -> exists l, logs c' = logs c ++ l.
Proof.
  unfold trade. intros H.
  repeat case_match; simplify_eq; simpl;
    solve [ eexists; reflexivity | exists []; now rewrite app_nil_r ].
Qed.

Lemma dispatch_logs (W : Runtime) (cat : option string) (data : NodeData)
    (c c' : TradingContext) (r : Res unit) :
  dispatch W cat data c = (r, c') -> exists l, logs c' = logs c ++ l.
Proof.
  unfold dispatch. intros H.
  repeat case_match; simplify_eq; simpl;
    solve [ eexists; reflexivity
          | exists []; now rewrite app_nil_r
          | eapply trade_logs; eassumption ].
Qed.

(** ** The walk: what is visited stays visited, the log grows *)

Lemma execute_from_node_O (W : Runtime) (nodes : list Node) (edges : list Edge)
    (id : string) (st : St) :
  execute_from_node W nodes edges 0 id st = (OutOfFuel, st).
Proof. reflexivity. Qed.

Lemma execute_from_node_S (W : Runtime) (nodes : list Node) (edges : list Edge)
    (fuel : nat) (id : string) (st : St) :
  execute_from_node W nodes edges (S fuel) id st =
  visit W nodes edges (execute_from_node W nodes edges fuel) fuel id st.
Proof. reflexivity. Qed.

#[local] Arguments execute_from_node : simpl never.

Section WalkFacts.
Context (W : Runtime) (nodes : list Node) (edges : list Edge).

#[local] Abbreviation exec_ok exec :=
  (forall id st r st', exec id st = (r, st') -> extends st st').

Lemma branch_extends (exec : string -> St -> Res unit * St) (result : bool) :
  exec_ok exec ->
  forall th st r st', branch exec result th st = (r, st') -> extends st st'.
Proof.
  intros Hexec [target_id handle] st r st' H. unfold branch in H.
  repeat case_match; simplify_eq; eauto using extends_refl.
Qed.

(** A first visit marks the node and goes on from there; a second visit
    changes nothing. *)
Lemma visit_extends (exec : string -> St -> Res unit * St) (fuel' : nat) :
  exec_ok exec ->
  forall id st r st',
    visit W nodes edges exec fuel' id st = (r, st') ->
    ((id ∈ visited st) /\ r = Ok tt /\ st' = st) \/
    ((id ∉ visited st) /\
     extends {| ctx := ctx st; visited := {[id]} ∪ visited st |} st').
Proof.
  intros Hexec id st r st' H. unfold visit in H.
  destruct (decide (id ∈ visited st)) as [Hin|Hin].
  { left. now simplify_eq. }
  right. split; [exact Hin|].
  set (st0 := {| ctx := ctx st; visited := {[id]} ∪ visited st |}) in *.
  destruct (node_map nodes !! id) as [n|]; [|simplify_eq; apply extends_refl].
  destruct (is_cat (category (n_data n)) "CONDITION").
  - destruct (strip (default "" (condition (n_data n)))) as [|ch cond'];
      [simplify_eq; apply extends_log|].
    destruct (evaluate_condition W fuel' _ _) as [result|e|];
      [|simplify_eq; apply extends_log|simplify_eq; apply extends_refl].
    match type of H with context [for_each ?b ?l ?s] =>
      destruct (for_each b l s) as [r2 st2] eqn:Hloop end.
    assert (extends st0 st2) as Hst2.
    { eapply extends_trans; [apply extends_log|].
      eapply (for_each_preserves extends); [apply extends_refl|apply extends_trans| |exact Hloop].
      now apply branch_extends. }
    destruct r2 as [[]|e|]; simplify_eq; [exact Hst2| |exact Hst2].
    eapply extends_trans; [exact Hst2|apply extends_log].
  - destruct (dispatch W _ _ _) as [r1 c1] eqn:Hd.
    apply dispatch_logs in Hd. simpl in Hd.
    assert (extends st0 {| ctx := c1; visited := visited st0 |}) as Hc1.
    { split; [set_solver|exact Hd]. }
    destruct r1 as [[]|e|]; simplify_eq; [|exact Hc1|exact Hc1].
    eapply extends_trans; [exact Hc1|].
    eapply (for_each_preserves extends); [apply extends_refl|apply extends_trans|exact Hexec|exact H].
Qed.

Lemma extends_marked (id : string) (st st' : St) :
  extends {| ctx := ctx st; visited := {[id]} ∪ visited st |} st' ->
  extends st st' /\ id ∈ visited st'.
Proof.
  intros [Hv Hl]. simpl in Hv, Hl.
  split; [split; [|exact Hl]|]; clear Hl; set_solver.
Qed.

Lemma execute_from_node_extends (fuel : nat) :
  exec_ok (execute_from_node W nodes edges fuel).
Proof.
  induction fuel as [|fuel IH]; intros id st r st' H.
  - rewrite execute_from_node_O in H. simplify_eq. apply extends_refl.
  - rewrite execute_from_node_S in H.
    destruct (visit_extends _ _ IH _ _ _ _ H) as [(_ & _ & ->)|[_ He]].
    + apply extends_refl.
    + now apply extends_marked in He.
Qed.

(** Whatever the outcome of a call that had fuel, its node is in
    [visited] afterwards. *)
Lemma execute_from_node_marks (fuel : nat) (id : string) (st st' : St) (r : Res unit) :
  execute_from_node W nodes edges (S fuel) id st = (r, st') ->
  id ∈ visited st'.
Proof.
  rewrite execute_from_node_S. intros H.
  destruct (visit_extends _ _ (execute_from_node_extends fuel) _ _ _ _ H)
    as [(Hin & _ & ->)|[_ He]]; [exact Hin|].
  now apply extends_marked in He.
Qed.

(** A call on a node that is in [visited] returns at once and leaves the
    state as it is. *)
Lemma execute_from_node_revisit (fuel : nat) (id : string) (st : St) :
  id ∈ visited st ->
  execute_from_node W nodes edges (S fuel) id st = (Ok tt, st).
Proof. intros Hin. rewrite execute_from_node_S. unfold visit. now rewrite decide_True. Qed.

(** When the loop over the successors returns, every successor is in
    [visited]. *)
Lemma for_each_marks (fuel : nat) (l : list string) (st st' : St) :
  for_each (execute_from_node W nodes edges (S fuel)) l st = (Ok tt, st') ->
  forall t, In t l -> t ∈ visited st'.
Proof.
  revert st. induction l as [|x l IH]; intros st H t Ht; [destruct Ht|].
  rewrite for_each_cons in H.
  destruct (execute_from_node W nodes edges (S fuel) x st) as [r1 st1] eqn:Hx.
  destruct r1 as [[]|e|]; try discriminate.
  destruct Ht as [->|Ht].
  - apply execute_from_node_marks in Hx.
    assert (extends st1 st') as [Hv _]; [|set_solver].
    eapply (for_each_preserves extends);
      [apply extends_refl|apply extends_trans| |exact H].
    apply execute_from_node_extends.
  - eapply IH; eassumption.
Qed.

End WalkFacts.

(** ** More fuel does not change a result *)

Lemma evaluate_condition_mono (W : Runtime) (fuel : nat) (cond : string)
    (vs : gmap string pyval) (r : Res bool) :
  evaluate_condition W fuel cond vs = r -> r <> OutOfFuel ->
  evaluate_condition W (S fuel) cond vs = r.
Proof.
  unfold evaluate_condition. intros H Hr.
  destruct (replace_variables W cond vs) as [resolved|e]; [|exact H].
  destruct (xor_loop fuel (rewrite_logical resolved)) as [s|] eqn:Hx.
  - now rewrite (xor_loop_mono _ _ _ Hx).
  - congruence.
Qed.

Section FuelFacts.
Context (W : Runtime) (nodes : list Node) (edges : list Edge).

Lemma for_each_mono {A : Type} (body body' : A -> St -> Res unit * St) :
  at_least body body' ->
  forall l, at_least (fun (_ : unit) => for_each body l) (fun _ => for_each body' l).
Proof.
  intros Hb l. induction l as [|x l IH]; intros [] st r st' H Hr; [exact H|].
  rewrite for_each_cons in H. rewrite for_each_cons.
  destruct (body x st) as [r1 st1] eqn:Hx.
  destruct r1 as [[]|e|].
  - rewrite (Hb _ _ _ _ Hx) by discriminate. now apply (IH tt).
  - rewrite (Hb _ _ _ _ Hx) by discriminate. exact H.
  - congruence.
Qed.

Lemma branch_mono (exec exec' : string -> St -> Res unit * St) (result : bool) :
  at_least exec exec' -> at_least (branch exec result) (branch exec' result).
Proof.
  intros He [target_id handle] st r st' H Hr. unfold branch in *.
  repeat case_match; auto.
Qed.

Lemma visit_mono (exec exec' : string -> St -> Res unit * St) (fuel' : nat) :
  at_least exec exec' ->
  at_least (visit W nodes edges exec fuel') (visit W nodes edges exec' (S fuel')).
Proof.
  intros He id st r st' H Hr. unfold visit in *.
  destruct (decide (id ∈ visited st)) as [Hin|Hin]; [exact H|].
  destruct (node_map nodes !! id) as [n|]; [|exact H].
  destruct (is_cat (category (n_data n)) "CONDITION").
  - destruct (strip (default "" (condition (n_data n)))) as [|ch cond']; [exact H|].
    destruct (evaluate_condition W fuel' _ _) as [result|e|] eqn:Hc.
    + rewrite (evaluate_condition_mono _ _ _ _ _ Hc) by discriminate.
      match type of H with context [for_each ?b ?l ?s] =>
        destruct (for_each b l s) as [r2 st2] eqn:Hloop end.
      destruct r2 as [[]|e|].
      * now rewrite (for_each_mono _ _ (branch_mono _ _ result He) _ tt _ _ _ Hloop).
      * now rewrite (for_each_mono _ _ (branch_mono _ _ result He) _ tt _ _ _ Hloop).
      * congruence.
    + now rewrite (evaluate_condition_mono _ _ _ _ _ Hc).
    + congruence.
  - destruct (dispatch W _ _ _) as [[[]|e|] c1]; [|exact H|exact H].
    now apply (for_each_mono _ _ He _ tt).
Qed.

Lemma execute_from_node_mono (fuel : nat) :
  at_least (execute_from_node W nodes edges fuel)
           (execute_from_node W nodes edges (S fuel)).
Proof.
  induction fuel as [|fuel IH]; intros id st r st' H Hr.
  - rewrite execute_from_node_O in H. congruence.
  - rewrite execute_from_node_S in H. rewrite execute_from_node_S.
    now apply (visit_mono _ _ _ IH).
Qed.

Lemma run_starts_mono (fuel : nat) (starts : list string) (c c' : TradingContext)
    (r : Res unit) :
  run_starts W nodes edges fuel starts c = (r, c') -> r <> OutOfFuel ->
  run_starts W nodes edges (S fuel) starts c = (r, c').
Proof.
  revert c. induction starts as [|s starts IH]; intros c H Hr; [exact H|].
  simpl in *. unfold execute_top in *.
  destruct (execute_from_node W nodes edges fuel s _) as [r1 st1] eqn:Hs.
  destruct r1 as [[]|e|].
  - rewrite (execute_from_node_mono _ _ _ _ _ Hs) by discriminate. now apply IH.
  - rewrite (execute_from_node_mono _ _ _ _ _ Hs) by discriminate. exact H.
  - congruence.
Qed.

End FuelFacts.

(** A request that has returned (a response or an exception) returns the
    same with any larger fuel. *)
Lemma run_algo_mono (W : Runtime) (payload : Payload) (fuel fuel' : nat)
    (r : Res Response) (c : TradingContext) :
  run_algo W fuel payload = (r, c) -> r <> OutOfFuel -> (fuel <= fuel')%nat ->
  run_algo W fuel' payload = (r, c).
Proof.
  intros H Hr Hle. induction Hle as [|fuel' Hle IH]; [exact H|].
  unfold run_algo in *.
  destruct (start_nodes (nodes payload)) as [|s starts]; [exact IH|].
  destruct (run_starts W _ _ fuel' (s :: starts) _) as [r1 c1] eqn:Hrun.
  destruct r1 as [[]|e|].
  - now rewrite (run_starts_mono _ _ _ _ _ _ _ _ Hrun).
  - now rewrite (run_starts_mono _ _ _ _ _ _ _ _ Hrun).
  - simplify_eq.
Qed.

(** ** One step of the walk, by the kind of node *)

Section VisitFacts.
Context (W : Runtime) (nodes : list Node) (edges : list Edge).

(** A first visit of a node that is not a CONDITION: dispatch, then the
    loop over all successors; what dispatch raises is not caught. *)
Lemma visit_plain (exec : string -> St -> Res unit * St) (fuel' : nat)
    (id : string) (st : St) (n : Node) :
  id ∉ visited st ->
  node_map nodes !! id = Some n ->
  is_cat (category (n_data n)) "CONDITION" = false ->
  visit W nodes edges exec fuel' id st =
    match dispatch W (category (n_data n)) (n_data n) (ctx st) with
    | (Ok _, c) =>
        for_each exec (outgoing edges id) {| ctx := c; visited := {[id]} ∪ visited st |}
    | (r, c) => (r, {| ctx := c; visited := {[id]} ∪ visited st |})
    end.
Proof.
  intros Hin Hn Hc. unfold visit.
  rewrite decide_False by exact Hin. rewrite Hn. simpl. rewrite Hc.
  reflexivity.
Qed.

(** The body of the loop of a CONDITION node follows an edge when its
    handle names the result, and skips it otherwise. *)
Lemma branch_picks (exec : string -> St -> Res unit * St) (result : bool)
    (e : Edge) (st : St) :
  branch exec result (target e, sourceHandle e) st =
    if decide (picks result e) then exec (target e) st else (Ok tt, st).
Proof.
  unfold branch.
  destruct (decide (picks result e)) as [Hp|Hp]; unfold picks in Hp.
  - rewrite Hp. now destruct result.
  - destruct (sourceHandle e) as [h|] eqn:Hh, result; simpl; try reflexivity.
    + destruct (String.eqb_spec h "yes") as [->|Hne]; [now destruct Hp|reflexivity].
    + destruct (String.eqb_spec h "no") as [->|Hne]; [now destruct Hp|reflexivity].
Qed.

(** The loop over the outgoing edges of a CONDITION node is the loop over
    the targets of the edges whose handle names the result. *)
Lemma for_each_branch (exec : string -> St -> Res unit * St) (result : bool)
    (id : string) (st : St) :
  for_each (branch exec result) (outgoing_handles edges id) st =
  for_each exec (selected edges id result) st.
Proof.
  unfold outgoing_handles, selected.
  revert st. induction edges as [|e es IH]; intros st; [reflexivity|].
  rewrite !filter_cons.
  destruct (decide (source e = id)) as [Hs|Hs].
  - rewrite map_cons, for_each_cons, branch_picks.
    destruct (decide (picks result e)) as [Hp|Hp].
    + rewrite decide_True by done. rewrite map_cons, for_each_cons.
      destruct (exec (target e) st) as [[[]|x|] st1]; auto.
    + rewrite decide_False by (intros [_ ?]; done). apply IH.
  - rewrite decide_False by (intros [? _]; done). apply IH.
Qed.

(** A first visit of a CONDITION node whose condition evaluates to
    [result]. *)
Lemma visit_condition (exec : string -> St -> Res unit * St) (fuel' : nat)
    (id : string) (st : St) (n : Node) (result : bool) :
  id ∉ visited st ->
  node_map nodes !! id = Some n ->
  category (n_data n) = Some "CONDITION" ->
  strip (default "" (condition (n_data n))) <> "" ->
  evaluate_condition W fuel' (strip (default "" (condition (n_data n))))
    (vars (ctx st)) = Ok result ->
  visit W nodes edges exec fuel' id st =
    match for_each exec (selected edges id result)
            (log_st "CONDITION"
               [Txt "Evaluated: "; Txt (strip (default "" (condition (n_data n))));
                Txt " = "; FBool result]
               {| ctx := ctx st; visited := {[id]} ∪ visited st |}) with
    | (Ok _, st2) => (Ok tt, st2)
    | (Raise e, st2) =>
        (Ok tt, log_st "CONDITION" [Txt "ERROR: "; Txt (exn_str e)] st2)
    | (OutOfFuel, st2) => (OutOfFuel, st2)
    end.
Proof.
  intros Hin Hn Hc Hne He. unfold visit.
  rewrite decide_False by exact Hin. rewrite Hn. simpl. rewrite Hc. simpl.
  destruct (strip (default "" (condition (n_data n)))) as [|ch cond'] eqn:Hcond;
    [congruence|].
  simpl in He. rewrite He. now rewrite for_each_branch.
Qed.

End VisitFacts.

(** ** CONDITION nodes *)

(** C5.  A first visit of a CONDITION node whose (non-empty) condition
    evaluates to [result] logs the evaluation and then walks, in the order
    of the edge list, exactly the targets of its outgoing edges whose
    handle is ["yes"] when [result] is true and ["no"] when it is false;
    an exception of such a walk is logged by the node.  The loop over all
    successors is not part of the result, an edge picked for one result is
    not picked for the other, and when no edge is picked nothing but the
    node itself is added to [visited]. *)
Theorem condition_follows_only_the_matching_branch :
  forall (W : Runtime) (nodes : list Node) (edges : list Edge) (fuel : nat)
         (id : string) (st : St) (n : Node) (result : bool),
    id ∉ visited st ->
    node_map nodes !! id = Some n ->
    category (n_data n) = Some "CONDITION" ->
    strip (default "" (condition (n_data n))) <> "" ->
    evaluate_condition W fuel (strip (default "" (condition (n_data n))))
      (vars (ctx st)) = Ok result ->
    let st1 :=
      log_st "CONDITION"
        [Txt "Evaluated: "; Txt (strip (default "" (condition (n_data n))));
         Txt " = "; FBool result]
        {| ctx := ctx st; visited := {[id]} ∪ visited st |} in
    execute_from_node W nodes edges (S fuel) id st =
      match for_each (execute_from_node W nodes edges fuel)
              (selected edges id result) st1 with
      | (Ok _, st2) => (Ok tt, st2)
      | (Raise e, st2) =>
          (Ok tt, log_st "CONDITION" [Txt "ERROR: "; Txt (exn_str e)] st2)
      | (OutOfFuel, st2) => (OutOfFuel, st2)
      end
    /\ (forall t, In t (selected edges id result) <->
                  exists e, In e edges /\ source e = id /\ target e = t /\ picks result e)
    /\ (forall e, picks result e -> ~ picks (negb result) e)
    /\ (selected edges id result = [] ->
        execute_from_node W nodes edges (S fuel) id st = (Ok tt, st1)).
Proof.
  intros W nodes edges fuel id st n result Hin Hn Hc Hne He st1.
  assert (execute_from_node W nodes edges (S fuel) id st =
          match for_each (execute_from_node W nodes edges fuel)
                  (selected edges id result) st1 with
          | (Ok _, st2) => (Ok tt, st2)
          | (Raise e, st2) =>
              (Ok tt, log_st "CONDITION" [Txt "ERROR: "; Txt (exn_str e)] st2)
          | (OutOfFuel, st2) => (OutOfFuel, st2)
          end) as Heq.
  { rewrite execute_from_node_S. now apply visit_condition. }
  split; [exact Heq|]. split; [|split].
  - intros t. unfold selected. rewrite in_map_iff. split.
    + intros (e & <- & Hf). apply list_elem_of_In, list_elem_of_filter in Hf.
      destruct Hf as [[Hs Hp] Hf]. exists e. now rewrite <- list_elem_of_In.
    + intros (e & Hf & Hs & Ht & Hp). exists e. split; [exact Ht|].
      apply list_elem_of_In, list_elem_of_filter. now rewrite list_elem_of_In.
  - intros e Hp Hq. unfold picks in *. rewrite Hp in Hq. now destruct result.
  - intros Hsel. rewrite Heq, Hsel. reflexivity.
Qed.

Lemma condition_follows_only_the_matching_branch_witness :
  execute_from_node offline fork_nodes fork_edges 2 "c" fresh =
    (Ok tt,
     {| ctx :=
          log "OUTPUT" [Txt "yes_side"; Txt " => "; FVal (PStr "NULL")]
            (log "CONDITION" [Txt "Evaluated: "; Txt "True"; Txt " = "; FBool true]
               TradingContext_init);
        visited := {["y"]} ∪ ({["c"]} ∪ ∅) |}).
Proof.
  rewrite (proj1 (condition_follows_only_the_matching_branch
                    offline fork_nodes fork_edges 1 "c" fresh
                    (Build_Node "c" (condition_of "True")) true
                    ltac:(set_solver) eq_refl eq_refl ltac:(discriminate) eq_refl)).
  reflexivity.
Defined.

(** ** MATH nodes *)

(** C6.  A first visit of a MATH node whose (non-empty) expression fails
    to evaluate does not raise: dispatch returns normally with the line
    [[MATH] ERROR: ...] appended and [last_output] set to 0, and the walk
    goes on with the loop over all successors of the node; when the walk
    of the node returns, every successor is in [visited].  Field by
    field, the context that dispatch leaves has [last_output] 0, the log
    of before with the one ERROR line at its end, and the variables, the
    budget and the holdings of before; and whatever the walk of the
    successors does, the log it ends with is the log of before, the ERROR
    line, and what the successors appended. *)
Theorem math_failure_is_isolated :
  forall (W : Runtime) (nodes : list Node) (edges : list Edge) (fuel : nat)
         (id : string) (st : St) (n : Node) (e : string),
    id ∉ visited st ->
    node_map nodes !! id = Some n ->
    category (n_data n) = Some "MATH" ->
    strip (default "" (expression (n_data n))) <> "" ->
    evaluate_math W (strip (default "" (expression (n_data n)))) (vars (ctx st)) = Error e ->
    let c1 := set_last_output (PNum 0) (log "MATH" [Txt "ERROR: "; Txt e] (ctx st)) in
    dispatch W (category (n_data n)) (n_data n) (ctx st) = (Ok tt, c1)
    /\ execute_from_node W nodes edges (S fuel) id st =
         for_each (execute_from_node W nodes edges fuel) (outgoing edges id)
           {| ctx := c1; visited := {[id]} ∪ visited st |}
    /\ (forall st', execute_from_node W nodes edges (S (S fuel)) id st = (Ok tt, st') ->
                    forall t, In t (outgoing edges id) -> t ∈ visited st')
    /\ last_output c1 = PNum 0
    /\ logs c1 = logs (ctx st) ++ [LogLine "MATH" [Txt "ERROR: "; Txt e]]
    /\ vars c1 = vars (ctx st)
    /\ budget c1 = budget (ctx st)
    /\ holdings c1 = holdings (ctx st)
    /\ (forall r st', execute_from_node W nodes edges (S fuel) id st = (r, st') ->
          exists more,
            logs (ctx st') =
              logs (ctx st) ++ LogLine "MATH" [Txt "ERROR: "; Txt e] :: more).
Proof.
  intros W nodes edges fuel id st n e Hin Hn Hc Hne He c1.
  assert (dispatch W (category (n_data n)) (n_data n) (ctx st) = (Ok tt, c1)) as Hd.
  { rewrite Hc. unfold dispatch. simpl.
    destruct (strip (default "" (expression (n_data n)))) as [|ch s]; [congruence|].
    now rewrite He. }
  assert (is_cat (category (n_data n)) "CONDITION" = false) as Hnc by now rewrite Hc.
  split; [exact Hd|]. split; [|split].
  - rewrite execute_from_node_S, (visit_plain _ _ _ _ _ _ _ n Hin Hn Hnc). now rewrite Hd.
  - intros st' H t Ht.
    rewrite execute_from_node_S, (visit_plain _ _ _ _ _ _ _ n Hin Hn Hnc), Hd in H.
    eapply for_each_marks; eassumption.
  - repeat (split; [reflexivity|]).
    intros r st' H.
    rewrite execute_from_node_S, (visit_plain _ _ _ _ _ _ _ n Hin Hn Hnc), Hd in H.
    apply (for_each_preserves extends _ extends_refl extends_trans
             (execute_from_node_extends W nodes edges fuel)) in H as [_ [more Hmore]].
    exists more. rewrite Hmore. simpl. now rewrite <- app_assoc.
Qed.

Lemma math_failure_is_isolated_witness :
  execute_from_node offline bad_math_nodes bad_math_edges 2 "m" fresh =
    (Ok tt,
     {| ctx :=
          set_last_output PNone
            (log "OUTPUT" [Txt "second"; Txt " => "; FVal (PStr "NULL")]
               (log "OUTPUT" [Txt "first"; Txt " => "; FVal (PStr "NULL")]
                  (log "MATH"
                     [Txt "ERROR: ";
                      Txt "Math evaluation error: Variable 'z' not found"]
                     TradingContext_init)));
        visited := {["q"]} ∪ ({["p"]} ∪ ({["m"]} ∪ ∅)) |}).
Proof.
  rewrite (proj1 (proj2 (math_failure_is_isolated
                    offline bad_math_nodes bad_math_edges 1 "m" fresh
                    (Build_Node "m" (math_of "{z} + 1"))
                    "Math evaluation error: Variable 'z' not found"
                    ltac:(set_solver) eq_refl eq_refl ltac:(discriminate) eq_refl))).
  reflexivity.
Defined.

(** ** Several START nodes *)

(** C1, as the claim states it, fails: [x] is the successor of both START
    nodes; its line is logged in the walk of [s1] and again in the walk of
    [s2]. *)
Lemma two_starts_dispatch_the_shared_node_twice :
  exists resp,
    fst (run_algo offline 2 two_starts) = Ok resp
    /\ r_logs resp =
         [ start_line; LogLine "OUTPUT" [Txt "total"; Txt " => "; FVal (PStr "NULL")];
           start_line; LogLine "OUTPUT" [Txt "total"; Txt " => "; FVal (PStr "NULL")] ].
Proof. eexists. split; reflexivity. Qed.

(** C1, amended.  The START nodes are walked in the order of the list and
    share the context: the walk of the first one runs on the context it is
    given, and the walks of the others on the context it leaves.  Each walk
    has a [visited] set of its own, empty at its start: whatever the
    context, and so whatever the earlier walks dispatched, the walk of a
    START node dispatches that node, appending its line to the log. *)
Theorem each_start_walk_has_its_own_visited :
  forall (W : Runtime) (nodes : list Node) (edges : list Edge) (fuel : nat)
         (s : string) (rest : list string) (c : TradingContext) (n : Node),
    node_map nodes !! s = Some n ->
    category (n_data n) = Some "START" ->
    exists r c1 l,
      execute_top W nodes edges (S fuel) s c = (r, c1)
      /\ logs c1 = logs c ++ start_line :: l
      /\ run_starts W nodes edges (S fuel) (s :: rest) c =
           match r with
           | Ok _ => run_starts W nodes edges (S fuel) rest c1
           | _ => (r, c1)
           end
      /\ (r, c1) =
           (let '(r0, st) :=
              execute_from_node W nodes edges (S fuel) s {| ctx := c; visited := ∅ |} in
            (r0, ctx st)).
Proof.
  intros W nodes edges fuel s rest c n Hn Hc.
  assert (is_cat (category (n_data n)) "CONDITION" = false) as Hnc by now rewrite Hc.
  assert (s ∉ visited {| ctx := c; visited := ∅ |}) as Hin by (simpl; set_solver).
  simpl run_starts. unfold execute_top.
  rewrite execute_from_node_S, (visit_plain _ _ _ _ _ _ _ n Hin Hn Hnc).
  rewrite Hc. unfold dispatch. simpl is_cat. cbv iota. simpl ctx.
  match goal with |- context [for_each ?b ?l ?s0] =>
    destruct (for_each b l s0) as [r st'] eqn:Hloop end.
  assert (extends
            {| ctx := set_last_output PNone (log "START" [Txt "Engine Ignited."] c);
               visited := {[s]} ∪ ∅ |} st') as [_ [l Hl]].
  { eapply (for_each_preserves extends);
      [apply extends_refl|apply extends_trans| |exact Hloop].
    apply execute_from_node_extends. }
  simpl in Hl.
  exists r, (ctx st'), l. split; [reflexivity|]. split; [|split].
  - now rewrite Hl, <- app_assoc.
  - now destruct r as [[]|e|].
  - reflexivity.
Qed.

Lemma each_start_walk_has_its_own_visited_witness :
  exists l,
    logs (snd (execute_top offline (nodes two_starts) (edges two_starts) 2 "s2"
                 (snd (execute_top offline (nodes two_starts) (edges two_starts) 2 "s1"
                         TradingContext_init)))) =
    logs (snd (execute_top offline (nodes two_starts) (edges two_starts) 2 "s1"
                 TradingContext_init)) ++ start_line :: l.
Proof.
  destruct (each_start_walk_has_its_own_visited offline (nodes two_starts)
              (edges two_starts) 1 "s2" []
              (snd (execute_top offline (nodes two_starts) (edges two_starts) 2 "s1"
                      TradingContext_init))
              (Build_Node "s2" (plain "START")) eq_refl eq_refl)
    as (r & c1 & l & H1 & H2 & _).
  exists l. now rewrite H1.
Defined.

(** ** Converging edges *)

(** C7, as the claim states it, fails: in the diamond in which B is a
    START node as well as A, the run dispatches D in the walk of A and
    again in the walk of B, and the log holds two lines of D. *)
Lemma diamond_with_two_starts_logs_D_twice :
  exists resp,
    fst (run_algo offline 4 diamond_two_starts) = Ok resp
    /\ r_logs resp =
         [ start_line; start_line;
           LogLine "OUTPUT" [Txt "d"; Txt " => "; FVal (PStr "NULL")];
           LogLine "OUTPUT" [Txt "c"; Txt " => "; FVal (PStr "NULL")];
           start_line;
           LogLine "OUTPUT" [Txt "d"; Txt " => "; FVal (PStr "NULL")] ].
Proof. eexists. split; reflexivity. Qed.

(** The diamond with A as its only START node, in every order of the
    edge list, with the fuel of four nested calls. *)
Lemma diamond_logs_D_once_4 (W : Runtime) :
  Forall (fun es =>
            exists resp c,
              run_algo W 4 {| nodes := diamond_nodes; edges := es |} = (Ok resp, c)
              /\ length (tagged "TRADE" (r_logs resp)) = 1%nat)
         (permutations diamond_edges).
Proof.
  let l := eval vm_compute in (permutations diamond_edges) in
  change (permutations diamond_edges) with l.
  repeat constructor; (eexists; eexists; split; [vm_compute; reflexivity | reflexivity]).
Qed.

(** C7, amended.  Within the walk of one START node a node is dispatched
    at most once: a call on a node that is in [visited] returns at once
    and changes nothing; every call that had fuel leaves its node in
    [visited], and no node ever leaves [visited].  For the diamond
    A->B, A->C, B->D, C->D with A its only START node, in every order of
    the edge list and for every runtime, the run returns and its log holds
    exactly one line of D (the only node that logs under the tag TRADE). *)
Theorem a_walk_dispatches_a_node_once :
  (forall (W : Runtime) (nodes : list Node) (edges : list Edge) (fuel : nat)
          (id : string) (st : St),
      id ∈ visited st ->
      execute_from_node W nodes edges (S fuel) id st = (Ok tt, st))
  /\ (forall (W : Runtime) (nodes : list Node) (edges : list Edge) (fuel : nat)
             (id : string) (st st' : St) (r : Res unit),
         execute_from_node W nodes edges (S fuel) id st = (r, st') ->
         (id ∈ visited st') /\ visited st ⊆ visited st')
  /\ (forall (W : Runtime) (es : list Edge) (fuel : nat),
         diamond_edges ≡ₚ es -> (4 <= fuel)%nat ->
         exists resp,
           fst (run_algo W fuel {| nodes := diamond_nodes; edges := es |}) = Ok resp
           /\ length (tagged "TRADE" (r_logs resp)) = 1%nat).
Proof.
  split; [|split].
  - intros. now apply execute_from_node_revisit.
  - intros W nodes edges fuel id st st' r H. split.
    + eapply execute_from_node_marks; exact H.
    + now apply execute_from_node_extends in H as [Hv _].
  - intros W es fuel Hp Hf.
    apply permutations_Permutation in Hp.
    pose proof (diamond_logs_D_once_4 W) as Hall.
    rewrite Forall_forall in Hall.
    destruct (Hall es Hp) as (resp & c & Hrun & Hlen).
    exists resp. split; [|exact Hlen].
    now rewrite (run_algo_mono _ _ 4 fuel _ _ Hrun ltac:(discriminate) Hf).
Qed.

Lemma a_walk_dispatches_a_node_once_witness :
  exists resp,
    fst (run_algo offline 4 {| nodes := diamond_nodes; edges := diamond_edges |}) = Ok resp
    /\ length (tagged "TRADE" (r_logs resp)) = 1%nat.
Proof.
  exact (proj2 (proj2 a_walk_dispatches_a_node_once) offline diamond_edges 4%nat
           (Permutation_refl _) (le_n 4)).
Defined.

(** ** RISK_ANALYSIS *)

Lemma ltb_leb (x y : float) : (x <? y)%float = true -> (x <=? y)%float = true.
Proof.
  rewrite ltb_spec, leb_spec. unfold SFltb, SFleb.
  now destruct (SFcompare (Prim2SF x) (Prim2SF y)) as [[]|].
Qed.

(** An absolute value that compares below something is not NaN, and then
    it is at least 0. *)
Lemma abs_nonneg (x y : float) :
  (abs x <? y)%float = true -> (0 <=? abs x)%float = true.
Proof.
  rewrite ltb_spec, leb_spec, abs_spec.
  replace (Prim2SF 0) with (S754_zero false) by reflexivity.
  destruct (Prim2SF x) as [s|s| |s m e]; simpl; try reflexivity.
  unfold SFltb. simpl. discriminate.
Qed.

Lemma final_risk_range (w_sum w_total : float) :
  (0 <=? final_risk w_sum w_total)%float = true
  /\ (final_risk w_sum w_total <=? 1)%float = true.
Proof.
  unfold final_risk, py_min.
  destruct (0 <? w_total)%float.
  - destruct (abs (w_sum / w_total) <? 1)%float eqn:Hlt.
    + split; [eapply abs_nonneg; exact Hlt | now apply ltb_leb].
    + split; reflexivity.
  - split; reflexivity.
Qed.

(** The loop of the code accumulates the weighted sum and the weight total
    of the resolved entries. *)
Lemma risk_loop_resolved (W : Runtime) (variables : gmap string pyval)
    (items : list RiskInput) (w_sum w_total : float) :
  risk_loop W variables items w_sum w_total =
  bind_res (resolve_entries W variables items)
    (fun ps => Ok (weighted_sum_from w_sum ps, weight_total_from w_total ps)).
Proof.
  revert w_sum w_total. induction items as [|item rest IH]; intros w_sum w_total;
    [reflexivity|].
  simpl. unfold resolve_entry.
  destruct (risk_value W variables _) as [val|e|]; simpl; try reflexivity.
  destruct (float_or_0 W (weight item)) as [wt|e|]; simpl; try reflexivity.
  rewrite IH.
  now destruct (resolve_entries W variables rest) as [ps|e|].
Qed.

(** C8, as the claim states it, fails: with the single entry
    [{value: "r1", weight: -1}] and [r1 = 1.0] the weight total is -1, not
    0, and the clamped absolute quotient is 1, yet the score is 0. *)
Lemma negative_weight_total_scores_zero :
  exists resp,
    fst (run_algo offline 5 (risk_run negative_weight_inputs)) = Ok resp
    /\ variables resp !! "r1" = Some (PNum 1)
    /\ variables resp !! "risk" = Some (PNum 0)
    /\ resolve_entries offline (variables resp) negative_weight_inputs = Ok [(1, -1)%float]
    /\ weight_total [(1, -1)%float] = (-1)%float
    /\ (weight_total [(1, -1)%float] =? 0)%float = false
    /\ py_min 1 (abs (weighted_sum [(1, -1)%float] / weight_total [(1, -1)%float])) = 1%float.
Proof. eexists. repeat split; vm_compute; reflexivity. Qed.

(** C8, amended.  Each entry resolves its value as the variable of that
    name when there is one (a number stored there is taken as it is), and
    else as a literal number, an unparsable one being 0.  With [w_sum] the
    weighted sum and [w_total] the weight total of the entries, the score
    is [abs(w_sum / w_total)] capped at 1 when [w_total > 0], and 0 when
    [w_total > 0] does not hold (a total of 0, a negative total); it
    always lies in [0, 1].  The inputs
    [[{value: "r1", weight: 2}, {value: "0.5", weight: 1}]] with
    [r1 = 1.0] score 2.5/3, the float 0.8333333333333334, which is 0.8333
    to four places. *)
Theorem risk_score_is_clamped_quotient_for_positive_total :
  forall (W : Runtime) (vs : gmap string pyval) (inputs : list RiskInput) (r : float),
    risk_analysis W vs inputs = Ok r ->
    (exists ps,
        resolve_entries W vs inputs = Ok ps
        /\ ((0 <? weight_total ps)%float = true ->
            r = py_min 1 (abs (weighted_sum ps / weight_total ps)))
        /\ ((0 <? weight_total ps)%float = false -> r = 0%float))
    /\ (0 <=? r)%float = true /\ (r <=? 1)%float = true
    /\ (forall s x, vs !! s = Some (PNum x) -> risk_value W vs (JStr s) = Ok x)
    /\ (forall s, vs !! s = None ->
                  risk_value W vs (JStr s) =
                    Ok match float_of_str W s with Value q => q | Error _ => 0%float end)
    /\ (exists resp,
           fst (run_algo offline 5 (risk_run spec_inputs)) = Ok resp
           /\ variables resp !! "r1" = Some (PNum 1)
           /\ variables resp !! "risk" = Some (PNum 0x1.aaaaaaaaaaaabp-1)
           /\ (8333 <? 0x1.aaaaaaaaaaaabp-1 * 10000)%float = true
           /\ (0x1.aaaaaaaaaaaabp-1 * 10000 <? 8334)%float = true).
Proof.
  intros W vs inputs r H.
  unfold risk_analysis in H. rewrite risk_loop_resolved in H.
  destruct (resolve_entries W vs inputs) as [ps|e|] eqn:Hps; simpl in H; try discriminate.
  injection H as <-.
  fold (weighted_sum ps) (weight_total ps).
  split; [|split; [|split; [|split; [|split]]]].
  - exists ps. split; [reflexivity|]. unfold final_risk. split; intros ->; reflexivity.
  - apply final_risk_range.
  - apply final_risk_range.
  - intros s x Hs. simpl. now rewrite Hs.
  - intros s Hs. simpl. rewrite Hs. now destruct (float_of_str W s).
  - eexists. repeat split; vm_compute; reflexivity.
Qed.

Lemma risk_score_is_clamped_quotient_for_positive_total_witness :
  (0 <=? 0x1.aaaaaaaaaaaabp-1)%float = true /\ (0x1.aaaaaaaaaaaabp-1 <=? 1)%float = true.
Proof.
  destruct (risk_score_is_clamped_quotient_for_positive_total
              offline r1_is_one spec_inputs 0x1.aaaaaaaaaaaabp-1
              ltac:(vm_compute; reflexivity))
    as (_ & Hlo & Hhi & _).
  split; [exact Hlo|exact Hhi].
Defined.

(** ** BUY and SELL *)

(** A BUY whose ticker has a holdings entry does what the table of the
    specification says: it succeeds exactly when [amount * price <= budget],
    and a BUY that fails leaves budget and holdings alone. *)
Lemma trade_buy_known (W : Runtime) (data : NodeData) (c : TradingContext)
    (amt h : float) :
  float_or_0 W (manualValue data) = Ok amt ->
  holdings c !! default "BTC" (ticker data) = Some h ->
  let tk := default "BTC" (ticker data) in
  let price := price_of (last_output c) in
  exists c',
    trade W (Some "BUY") data c = (Ok tt, c')
    /\ last_output c' = PNone
    /\ ((amt * price <=? budget c)%float = true ->
        budget c' = (budget c - amt * price)%float
        /\ holdings c' = <[tk := (h + amt)%float]> (holdings c)
        /\ logs c' = logs c ++
             [LogLine "TRADE"
                [Txt "BOUGHT "; FNum amt; Txt " "; Txt tk; Txt " @ $"; FNum2 price]])
    /\ ((amt * price <=? budget c)%float = false ->
        budget c' = budget c
        /\ holdings c' = holdings c
        /\ logs c' = logs c ++
             [LogLine "TRADE" [Txt "FAILED: Insufficient funds or holdings"]]).
Proof.
  intros Hamt Hh tk price. unfold trade. rewrite Hamt.
  change (is_cat (Some "BUY") "BUY") with true.
  change (is_cat (Some "BUY") "SELL") with false.
  change (holdings (set_budget (budget c - amt * price_of (last_output c)) c))
    with (holdings c).
  rewrite Hh. fold tk price.
  destruct (amt * price <=? budget c)%float eqn:Hle; cbv iota beta; simpl andb; cbv iota.
  - eexists. split; [reflexivity|].
    split; [reflexivity|]. split; [intros _; repeat split|discriminate].
  - eexists. split; [reflexivity|].
    split; [reflexivity|]. split; [discriminate|intros _; repeat split].
Qed.

Example priced_buy_succeeds :
  exists resp,
    fst (run_algo offline 4 priced_buy) = Ok resp
    /\ final_budget resp = 80%float
    /\ final_holdings resp !! "BTC" = Some 2%float
    /\ last (r_logs resp) =
         Some (LogLine "TRADE"
                 [Txt "BOUGHT "; FNum 2; Txt " "; Txt "BTC"; Txt " @ $"; FNum2 10]).
Proof. eexists. repeat split; vm_compute; reflexivity. Qed.

(** C3 (the code departs from the claim).  A BUY of -1 BTC passes the
    check [amt * price <= budget] (-0.0 <= 0.0) and leaves holdings of -1
    BTC; a SELL of -2 BTC at the price 10 passes the check
    [holdings >= amt] (0 >= -2) and leaves a budget of -10.  Both runs
    return normally, whatever the runtime. *)
Theorem negative_amounts_make_holdings_and_budget_negative :
  forall W : Runtime,
    (exists resp,
        fst (run_algo W 2 negative_buy) = Ok resp
        /\ final_holdings resp !! "BTC" = Some (-1)%float
        /\ (-1 <? 0)%float = true
        /\ final_budget resp = 0%float)
    /\ (exists resp,
           fst (run_algo W 3 negative_sell) = Ok resp
           /\ final_budget resp = (-10)%float
           /\ (-10 <? 0)%float = true
           /\ final_holdings resp !! "BTC" = Some 2%float).
Proof.
  intros W. split; eexists; repeat split; vm_compute; reflexivity.
Qed.

(** C4 (the code departs from the claim).  With a budget of 100 and the
    price 100, a BUY of 1 DOGE passes the affordability check; the budget
    is decreased to 0, and then the lookup [ctx.holdings["DOGE"]] raises.
    The trade has neither succeeded (no holdings were added, nothing was
    logged as bought) nor failed atomically (the budget is gone, no
    failure was logged): the run ends with the [KeyError], and the OUTPUT
    node after the BUY is not reached. *)
Theorem affordable_buy_of_unknown_ticker_takes_the_budget_and_raises :
  forall W : Runtime,
    exists c,
      run_algo W 3 buy_doge = (Raise (KeyError "DOGE"), c)
      /\ budget c = 0%float
      /\ holdings c = holdings TradingContext_init
      /\ logs c = [ start_line; LogLine "WALLET" [Txt "Budget locked at $"; FNum 100] ].
Proof.
  intros W. eexists. repeat split; vm_compute; reflexivity.
Qed.

(** ** A ticker without a holdings entry *)

Lemma holdings_init_keys (k : string) :
  is_Some (holdings TradingContext_init !! k) <-> k = "BTC" \/ k = "ETH".
Proof.
  unfold TradingContext_init. simpl.
  destruct (decide (k = "BTC")) as [->|Hb].
  { rewrite lookup_insert_eq. split; [now left|eauto]. }
  rewrite lookup_insert_ne by congruence.
  destruct (decide (k = "ETH")) as [->|He].
  { rewrite lookup_insert_eq. split; [now right|eauto]. }
  rewrite lookup_insert_ne by congruence. rewrite lookup_empty.
  split; [intros [x Hx]; discriminate | intros [?|?]; congruence].
Qed.

Lemma trade_sell_unknown (W : Runtime) (data : NodeData) (c : TradingContext)
    (amt : float) :
  float_or_0 W (manualValue data) = Ok amt ->
  holdings c !! default "BTC" (ticker data) = None ->
  trade W (Some "SELL") data c = (Raise (KeyError (default "BTC" (ticker data))), c).
Proof.
  intros Hamt Hh. unfold trade. rewrite Hamt.
  change (is_cat (Some "SELL") "BUY") with false.
  change (is_cat (Some "SELL") "SELL") with true.
  simpl andb. cbv iota. now rewrite Hh.
Qed.

Lemma trade_buy_unknown (W : Runtime) (data : NodeData) (c : TradingContext)
    (amt : float) :
  float_or_0 W (manualValue data) = Ok amt ->
  holdings c !! default "BTC" (ticker data) = None ->
  (amt * price_of (last_output c) <=? budget c)%float = true ->
  trade W (Some "BUY") data c =
    (Raise (KeyError (default "BTC" (ticker data))),
     set_budget (budget c - amt * price_of (last_output c))%float c).
Proof.
  intros Hamt Hh Hle. unfold trade. rewrite Hamt.
  change (is_cat (Some "BUY") "BUY") with true.
  rewrite Hle. simpl andb. cbv iota.
  change (holdings (set_budget (budget c - amt * price_of (last_output c)) c))
    with (holdings c).
  now rewrite Hh.
Qed.

(** An exception that the walk of a START node raises ends the loop over
    the START nodes and is the result of the request. *)
Lemma run_algo_raises (W : Runtime) (payload : Payload) (fuel : nat)
    (s : string) (rest : list string) (e : exn) (c' : TradingContext) :
  start_nodes (nodes payload) = s :: rest ->
  execute_top W (nodes payload) (edges payload) fuel s TradingContext_init = (Raise e, c') ->
  run_algo W fuel payload = (Raise e, c').
Proof.
  intros Hs He. unfold run_algo. rewrite Hs. simpl. now rewrite He.
Qed.

(** C10, as the claim states it, fails: the SELL of DOGE hangs on the
    [yes] edge of a condition that holds.  Its [KeyError] is caught by
    the [except] clause of the CONDITION node, which logs it; the run is
    not aborted: it goes on to the OUTPUT node and returns a response. *)
Lemma condition_catches_the_unknown_ticker_error :
  exists resp,
    fst (run_algo offline 3 guarded_sell_doge) = Ok resp
    /\ r_logs resp =
         [ start_line;
           LogLine "CONDITION" [Txt "Evaluated: "; Txt "True"; Txt " = "; FBool true];
           LogLine "CONDITION" [Txt "ERROR: "; Txt "'DOGE'"];
           LogLine "OUTPUT" [Txt "total"; Txt " => "; FVal (PStr "NULL")] ].
Proof. eexists. split; reflexivity. Qed.

(** C10, amended.  The holdings start with exactly the keys BTC and ETH.
    A first visit of a SELL node whose ticker has no holdings entry, or of
    a BUY node with such a ticker whose affordability check passes (the
    budget is decreased before the lookup), raises a [KeyError] that the
    node does not catch.  The error leaves every enclosing call on a node
    that is not a CONDITION, and when it leaves the walk of a START node it
    is the result of the whole request.  A CONDITION node whose branch
    walk raises it catches it: the node logs the error and returns
    normally. *)
Theorem unknown_ticker_error_propagates_up_to_a_condition :
  (forall k, is_Some (holdings TradingContext_init !! k) <-> k = "BTC" \/ k = "ETH")
  /\ (forall (W : Runtime) (nodes : list Node) (edges : list Edge) (fuel : nat)
             (id : string) (st : St) (n : Node) (amt : float),
         id ∉ visited st ->
         node_map nodes !! id = Some n ->
         holdings (ctx st) !! default "BTC" (ticker (n_data n)) = None ->
         float_or_0 W (manualValue (n_data n)) = Ok amt ->
         (category (n_data n) = Some "SELL" ->
          execute_from_node W nodes edges (S fuel) id st =
            (Raise (KeyError (default "BTC" (ticker (n_data n)))),
             {| ctx := ctx st; visited := {[id]} ∪ visited st |}))
         /\ (category (n_data n) = Some "BUY" ->
             (amt * price_of (last_output (ctx st)) <=? budget (ctx st))%float = true ->
             execute_from_node W nodes edges (S fuel) id st =
               (Raise (KeyError (default "BTC" (ticker (n_data n)))),
                {| ctx := set_budget
                            (budget (ctx st) - amt * price_of (last_output (ctx st)))%float
                            (ctx st);
                   visited := {[id]} ∪ visited st |})))
  /\ (forall (W : Runtime) (nodes : list Node) (edges : list Edge) (fuel : nat)
             (id : string) (st st' : St) (n : Node) (c1 : TradingContext) (e : exn),
         id ∉ visited st ->
         node_map nodes !! id = Some n ->
         is_cat (category (n_data n)) "CONDITION" = false ->
         dispatch W (category (n_data n)) (n_data n) (ctx st) = (Ok tt, c1) ->
         for_each (execute_from_node W nodes edges fuel) (outgoing edges id)
           {| ctx := c1; visited := {[id]} ∪ visited st |} = (Raise e, st') ->
         execute_from_node W nodes edges (S fuel) id st = (Raise e, st'))
  /\ (forall (W : Runtime) (payload : Payload) (fuel : nat) (s : string)
             (rest : list string) (e : exn) (c' : TradingContext),
         start_nodes (nodes payload) = s :: rest ->
         execute_top W (nodes payload) (edges payload) fuel s TradingContext_init
           = (Raise e, c') ->
         run_algo W fuel payload = (Raise e, c'))
  /\ (forall (W : Runtime) (nodes : list Node) (edges : list Edge) (fuel : nat)
             (id : string) (st st2 : St) (n : Node) (result : bool) (e : exn),
         id ∉ visited st ->
         node_map nodes !! id = Some n ->
         category (n_data n) = Some "CONDITION" ->
         strip (default "" (condition (n_data n))) <> "" ->
         evaluate_condition W fuel (strip (default "" (condition (n_data n))))
           (vars (ctx st)) = Ok result ->
         for_each (execute_from_node W nodes edges fuel) (selected edges id result)
           (log_st "CONDITION"
              [Txt "Evaluated: "; Txt (strip (default "" (condition (n_data n))));
               Txt " = "; FBool result]
              {| ctx := ctx st; visited := {[id]} ∪ visited st |}) = (Raise e, st2) ->
         execute_from_node W nodes edges (S fuel) id st =
           (Ok tt, log_st "CONDITION" [Txt "ERROR: "; Txt (exn_str e)] st2)).
Proof.
  split; [exact holdings_init_keys|]. split; [|split; [|split]].
  - intros W nodes edges fuel id st n amt Hin Hn Hh Hamt. split.
    + intros Hc.
      rewrite execute_from_node_S, (visit_plain _ _ _ _ _ _ _ n Hin Hn) by now rewrite Hc.
      rewrite Hc. unfold dispatch. simpl is_cat. simpl orb. cbv iota.
      now rewrite (trade_sell_unknown _ _ _ _ Hamt Hh).
    + intros Hc Hle.
      rewrite execute_from_node_S, (visit_plain _ _ _ _ _ _ _ n Hin Hn) by now rewrite Hc.
      rewrite Hc. unfold dispatch. simpl is_cat. simpl orb. cbv iota.
      now rewrite (trade_buy_unknown _ _ _ _ Hamt Hh Hle).
  - intros W nodes edges fuel id st st' n c1 e Hin Hn Hnc Hd Hloop.
    rewrite execute_from_node_S, (visit_plain _ _ _ _ _ _ _ n Hin Hn Hnc).
    now rewrite Hd.
  - intros. eapply run_algo_raises; eassumption.
  - intros W nodes edges fuel id st st2 n result e Hin Hn Hc Hne He Hloop.
    rewrite execute_from_node_S, (visit_condition _ _ _ _ _ _ _ n result Hin Hn Hc Hne He).
    now rewrite Hloop.
Qed.

Lemma unknown_ticker_error_propagates_up_to_a_condition_witness :
  run_algo offline 2 sell_doge =
    (Raise (KeyError "DOGE"),
     log "START" [Txt "Engine Ignited."] TradingContext_init).
Proof.
  exact (proj1 (proj2 (proj2 (proj2 unknown_ticker_error_propagates_up_to_a_condition)))
           offline sell_doge 2%nat "s" [] (KeyError "DOGE")
           (log "START" [Txt "Engine Ignited."] TradingContext_init)
           eq_refl eq_refl).
Defined.

(** ** The chained exclusive-or *)

(** A first visit of a CONDITION node whose evaluation has not returned
    has not returned either. *)
Lemma visit_condition_stalls (W : Runtime) (nodes : list Node) (edges : list Edge)
    (exec : string -> St -> Res unit * St) (fuel' : nat)
    (id : string) (st : St) (n : Node) :
  id ∉ visited st ->
  node_map nodes !! id = Some n ->
  category (n_data n) = Some "CONDITION" ->
  strip (default "" (condition (n_data n))) <> "" ->
  evaluate_condition W fuel' (strip (default "" (condition (n_data n))))
    (vars (ctx st)) = OutOfFuel ->
  visit W nodes edges exec fuel' id st =
    (OutOfFuel, {| ctx := ctx st; visited := {[id]} ∪ visited st |}).
Proof.
  intros Hin Hn Hc Hne He. unfold visit.
  rewrite decide_False by exact Hin. rewrite Hn. simpl. rewrite Hc. simpl.
  destruct (strip (default "" (condition (n_data n)))) as [|ch cond'] eqn:Hcond;
    [congruence|].
  simpl in He. now rewrite He.
Qed.

(** C2 (the code departs from the claim).  On the chained condition
    [a ^^ b ^^ c] the first rewrite gives [(bool(a) != bool(b)) ^^ c];
    its left operand now ends in two closing parentheses, which
    [\([^)]+\)] cannot match, so [re.sub] returns the text unchanged, [^^]
    stays in it, and the [while] loop never ends: whatever the runtime, the
    variables and the number of iterations allowed, [evaluate_condition]
    has not returned, and neither has a request whose graph holds a
    CONDITION node with this condition after its START node. *)
Theorem evaluate_condition_chained_xor_diverges :
  forall W : Runtime,
    (forall (variables : gmap string pyval) (fuel : nat),
        evaluate_condition W fuel "a ^^ b ^^ c" variables = OutOfFuel)
    /\ (forall fuel : nat, fst (run_algo W fuel chained_xor_run) = OutOfFuel).
Proof.
  intros W.
  assert (forall (variables : gmap string pyval) (fuel : nat),
             evaluate_condition W fuel "a ^^ b ^^ c" variables = OutOfFuel) as Hev.
  { intros variables fuel. unfold evaluate_condition.
    change (replace_variables W "a ^^ b ^^ c" variables) with (@Value string "a ^^ b ^^ c").
    cbv iota.
    change (rewrite_logical "a ^^ b ^^ c") with "a ^^ b ^^ c".
    now rewrite xor_loop_chained. }
  split; [exact Hev|].
  intros [|[|fuel]]; [reflexivity|reflexivity|].
  unfold run_algo.
  change (start_nodes (nodes chained_xor_run)) with ["s"].
  cbv iota. simpl run_starts. unfold execute_top.
  rewrite execute_from_node_S.
  rewrite (visit_plain _ _ _ _ _ _ _ (Build_Node "s" (plain "START")))
    by (try reflexivity; simpl; set_solver).
  match goal with |- context [dispatch W ?a ?b ?c] =>
    change (dispatch W a b c)
      with (@Ok unit tt,
            set_last_output PNone (log "START" [Txt "Engine Ignited."] TradingContext_init))
  end.
  cbv iota.
  match goal with |- context [outgoing ?es "s"] => change (outgoing es "s") with ["c"] end.
  rewrite for_each_cons, execute_from_node_S.
  rewrite (visit_condition_stalls _ _ _ _ _ _ _ (Build_Node "c" (condition_of "a ^^ b ^^ c")));
    [ reflexivity
    | cbn [visited]; rewrite elem_of_union, elem_of_singleton, elem_of_empty;
      intros [?|[]]; discriminate
    | reflexivity | reflexivity | discriminate | apply Hev ].
Qed.

(** * Further properties of the interpreter *)

(** ** The node map *)

Lemma node_map_from (ns : list Node) (m : gmap string Node) (id : string) (n : Node) :
  foldl (fun m n => <[n_id n := n]> m) m ns !! id = Some n ->
  m !! id = Some n \/ (In n ns /\ n_id n = id).
Proof.
  revert m. induction ns as [|x ns IH]; intros m H; simpl in H; [now left|].
  destruct (IH _ H) as [Hm|[Hin Hid]].
  - destruct (decide (n_id x = id)) as [Hx|Hx].
    + subst id. rewrite lookup_insert_eq in Hm. injection Hm as ->.
      right. split; [now left|reflexivity].
    + rewrite lookup_insert_ne in Hm by exact Hx. now left.
  - right. split; [now right|exact Hid].
Qed.

(** What [node_map] answers for an id is a node of the list with that id. *)
Lemma node_map_In (ns : list Node) (id : string) (n : Node) :
  node_map ns !! id = Some n -> In n ns /\ n_id n = id.
Proof.
  intros H. destruct (node_map_from ns ∅ id n H) as [Hm|Hm]; [|exact Hm].
  rewrite lookup_empty in Hm. discriminate.
Qed.

(** ** Invariants of the context along a run *)

Section ContextInvariant.
Context (W : Runtime) (nodes : list Node) (edges : list Edge).
Context (P : TradingContext -> Prop).
Hypothesis P_log : forall t m c, P c -> P (log t m c).
Hypothesis P_dispatch :
  forall n c r c',
    In n nodes -> P c ->
    dispatch W (category (n_data n)) (n_data n) c = (r, c') -> P c'.

#[local] Abbreviation keeps exec :=
  (forall (id : string) (st st' : St) (r : Res unit),
      exec id st = (r, st') -> P (ctx st) -> P (ctx st')).

Lemma for_each_keeps {A : Type} (body : A -> St -> Res unit * St) :
  (forall x st st' r, body x st = (r, st') -> P (ctx st) -> P (ctx st')) ->
  forall l st st' r, for_each body l st = (r, st') -> P (ctx st) -> P (ctx st').
Proof.
  intros Hb l st st' r H.
  apply (for_each_preserves (fun a b => P (ctx a) -> P (ctx b)) body) with (l := l) (r := r);
    [auto|auto| |exact H].
  intros x s r1 s1 Hx. eapply Hb; exact Hx.
Qed.

Lemma visit_keeps (exec : string -> St -> Res unit * St) (fuel' : nat) :
  keeps exec -> keeps (visit W nodes edges exec fuel').
Proof.
  intros Hexec id st st' r H HP. unfold visit in H.
  destruct (decide (id ∈ visited st)) as [Hin|Hin]; [now simplify_eq|].
  destruct (node_map nodes !! id) as [n|] eqn:Hn; [|now simplify_eq].
  apply node_map_In in Hn as [Hn _].
  destruct (is_cat (category (n_data n)) "CONDITION").
  - destruct (strip (default "" (condition (n_data n)))) as [|ch cond'];
      [simplify_eq; now apply P_log|].
    destruct (evaluate_condition W fuel' _ _) as [result|e|];
      [|simplify_eq; now apply P_log|now simplify_eq].
    match type of H with context [for_each ?b ?l ?s] =>
      destruct (for_each b l s) as [r2 st2] eqn:Hloop end.
    assert (P (ctx st2)) as H2.
    { eapply for_each_keeps; [|exact Hloop|simpl; now apply P_log].
      intros [t h] s s' r1 Hb. unfold branch in Hb.
      repeat case_match; simplify_eq; eauto. }
    destruct r2 as [[]|e|]; simplify_eq; [exact H2| |exact H2].
    simpl. now apply P_log.
  - destruct (dispatch W _ _ _) as [r1 c1] eqn:Hd.
    pose proof (P_dispatch _ _ _ _ Hn HP Hd) as H1.
    destruct r1 as [[]|e|]; simplify_eq; [|exact H1|exact H1].
    eapply for_each_keeps; [|exact H|exact H1].
    intros x s s' r1 Hx. eapply Hexec; exact Hx.
Qed.

Lemma execute_from_node_keeps (fuel : nat) :
  keeps (execute_from_node W nodes edges fuel).
Proof.
  induction fuel as [|fuel IH]; intros id st st' r H HP.
  - rewrite execute_from_node_O in H. now simplify_eq.
  - rewrite execute_from_node_S in H. eapply visit_keeps; eassumption.
Qed.

Lemma run_starts_keeps (fuel : nat) (starts : list string) (c c' : TradingContext)
    (r : Res unit) :
  run_starts W nodes edges fuel starts c = (r, c') -> P c -> P c'.
Proof.
  revert c. induction starts as [|s starts IH]; intros c H HP; simpl in H;
    [now simplify_eq|].
  unfold execute_top in H.
  destruct (execute_from_node W nodes edges fuel s _) as [r1 st1] eqn:Hs.
  apply execute_from_node_keeps in Hs; [|exact HP].
  destruct r1 as [[]|e|]; [now apply (IH _ H)|now simplify_eq|now simplify_eq].
Qed.

End ContextInvariant.

(** A property of the context that logging keeps and that the dispatch of
    every node of the payload keeps holds of the context a request leaves
    behind, whatever its outcome, when it holds of the fresh context. *)
Lemma run_algo_keeps (W : Runtime) (payload : Payload) (P : TradingContext -> Prop) :
  (forall t m c, P c -> P (log t m c)) ->
  (forall n c r c',
      In n (nodes payload) -> P c ->
      dispatch W (category (n_data n)) (n_data n) c = (r, c') -> P c') ->
  P TradingContext_init ->
  forall fuel, P (snd (run_algo W fuel payload)).
Proof.
  intros Hlog Hd H0 fuel. unfold run_algo.
  destruct (start_nodes (nodes payload)) as [|s starts]; [exact H0|].
  destruct (run_starts W _ _ fuel (s :: starts) _) as [r c] eqn:Hrun.
  pose proof (run_starts_keeps W _ _ P Hlog Hd _ _ _ _ _ Hrun H0) as Hc.
  now destruct r as [[]|e|].
Qed.

(** ** What dispatch leaves alone *)

Lemma trade_frame (W : Runtime) (cat : option string) (data : NodeData)
    (c c' : TradingContext) (r : Res unit) :
  trade W cat data c = (r, c') ->
  vars c' = vars c /\ dom (holdings c') = dom (holdings c).
Proof.
  unfold trade. intros H.
  repeat case_match; simplify_eq; simpl; split; try reflexivity;
    apply dom_insert_lookup_L; eauto.
Qed.

Lemma dispatch_holdings_dom (W : Runtime) (cat : option string) (data : NodeData)
    (c c' : TradingContext) (r : Res unit) :
  dispatch W cat data c = (r, c') -> dom (holdings c') = dom (holdings c).
Proof.
  unfold dispatch. intros H.
  repeat case_match; simplify_eq; simpl; try reflexivity;
    eapply trade_frame; eassumption.
Qed.

Lemma dispatch_frame (W : Runtime) (cat : option string) (data : NodeData)
    (c c' : TradingContext) (r : Res unit) :
  dispatch W cat data c = (r, c') ->
  (is_cat cat "VARIABLE" = false -> vars c' = vars c)
  /\ (is_cat cat "BUY" = false -> is_cat cat "SELL" = false ->
      holdings c' = holdings c
      /\ (is_cat cat "SET_BUDGET" = false -> budget c' = budget c)).
Proof.
  unfold dispatch. intros H.
  destruct (is_cat cat "START"); [simplify_eq; simpl; auto|].
  destruct (is_cat cat "VARIABLE") eqn:Hv.
  { split; [discriminate|]. intros _ _.
    repeat case_match; simplify_eq; simpl; auto. }
  destruct (is_cat cat "MATH");
    [repeat case_match; simplify_eq; simpl; auto|].
  destruct (is_cat cat "SET_BUDGET") eqn:Hb.
  { split; [intros _|intros _ _; split; [|discriminate]];
      repeat case_match; simplify_eq; simpl; auto. }
  destruct (is_cat cat "SCRAPE_BTC" || is_cat cat "SCRAPE_ETH");
    [repeat case_match; simplify_eq; simpl; auto|].
  destruct (is_cat cat "NEWS_SCRAPER"); [simplify_eq; simpl; auto|].
  destruct (is_cat cat "SEND_TO_LLM"); [simplify_eq; simpl; auto|].
  destruct (is_cat cat "RISK_ANALYSIS");
    [repeat case_match; simplify_eq; simpl; auto|].
  destruct (is_cat cat "BUY") eqn:Hbuy.
  { simpl in H. apply trade_frame in H as [Hvars _].
    split; [now intros _|discriminate]. }
  destruct (is_cat cat "SELL") eqn:Hsell.
  { simpl in H. apply trade_frame in H as [Hvars _].
    split; [now intros _|discriminate]. }
  simpl in H.
  destruct (is_cat cat "OUTPUT"); simplify_eq; simpl; auto.
Qed.

(** X1.  Whatever the graph, the runtime and the outcome of the request,
    the holdings of the context have exactly the keys BTC and ETH: no
    dispatch adds or removes an asset, and so the [final_holdings] of every
    response have these two keys. *)
Theorem holdings_keys_never_change :
  forall (W : Runtime) (fuel : nat) (payload : Payload) (k : string),
    (is_Some (holdings (snd (run_algo W fuel payload)) !! k) <-> k = "BTC" \/ k = "ETH")
    /\ (forall resp,
           fst (run_algo W fuel payload) = Ok resp ->
           (is_Some (final_holdings resp !! k) <-> k = "BTC" \/ k = "ETH")).
Proof.
  intros W fuel payload k.
  assert (dom (holdings (snd (run_algo W fuel payload))) =
          dom (holdings TradingContext_init)) as Hdom.
  { apply (run_algo_keeps W payload
             (fun c => dom (holdings c) = dom (holdings TradingContext_init))).
    - intros t m c Hc. exact Hc.
    - intros n c r c' _ Hc Hd. apply dispatch_holdings_dom in Hd. congruence.
    - reflexivity. }
  assert (is_Some (holdings (snd (run_algo W fuel payload)) !! k) <->
          k = "BTC" \/ k = "ETH") as Hkeys.
  { rewrite <- elem_of_dom, Hdom, elem_of_dom. apply holdings_init_keys. }
  split; [exact Hkeys|].
  intros resp Hr.
  replace (final_holdings resp) with (holdings (snd (run_algo W fuel payload)));
    [exact Hkeys|].
  unfold run_algo in *.
  destruct (start_nodes (nodes payload)) as [|s starts]; [discriminate|].
  destruct (run_starts W _ _ fuel (s :: starts) _) as [[[]|e|] c]; simpl in *;
    [|discriminate|discriminate].
  now injection Hr as <-.
Qed.

Lemma holdings_keys_never_change_witness :
  is_Some (final_holdings
             {| r_logs := logs (snd (run_algo offline 4 priced_buy));
                final_budget := budget (snd (run_algo offline 4 priced_buy));
                final_holdings := holdings (snd (run_algo offline 4 priced_buy));
                variables := vars (snd (run_algo offline 4 priced_buy)) |} !! "ETH").
Proof.
  apply (proj2 (holdings_keys_never_change offline 4 priced_buy "ETH") _ eq_refl).
  now right.
Defined.

(** X2.  Whatever the graph, the runtime and the outcome of the request,
    no variable of the context has the empty name and no variable holds
    [None]: VARIABLE stores only under a non-empty stripped name and only
    when [last_output] is not [None], and nothing else writes a
    variable. *)
Theorem variables_have_names_and_values :
  forall (W : Runtime) (fuel : nat) (payload : Payload),
    vars (snd (run_algo W fuel payload)) !! "" = None
    /\ (forall k, vars (snd (run_algo W fuel payload)) !! k <> Some PNone).
Proof.
  intros W fuel payload.
  apply (run_algo_keeps W payload
           (fun c => vars c !! "" = None /\ forall k, vars c !! k <> Some PNone)).
  - intros t m c Hc. exact Hc.
  - intros n c r c' _ [H0 Hn] Hd.
    destruct (is_cat (category (n_data n)) "VARIABLE") eqn:Hv.
    + unfold dispatch in Hd. rewrite Hv in Hd.
      destruct (is_cat (category (n_data n)) "START"); [simplify_eq; now split|].
      destruct (strip (default "" (variableName (n_data n)))) as [|ch name] eqn:Hname;
        [simplify_eq; now split|].
      destruct (last_output c) as [|x|s] eqn:Hlast; simplify_eq; simpl;
        [now split| |].
      * split; [now rewrite lookup_insert_ne|].
        intros k. destruct (decide (String ch name = k)) as [<-|Hk].
        -- rewrite lookup_insert_eq. discriminate.
        -- rewrite lookup_insert_ne by exact Hk. apply Hn.
      * split; [now rewrite lookup_insert_ne|].
        intros k. destruct (decide (String ch name = k)) as [<-|Hk].
        -- rewrite lookup_insert_eq. discriminate.
        -- rewrite lookup_insert_ne by exact Hk. apply Hn.
    + apply dispatch_frame in Hd as [Hvars _]. rewrite (Hvars Hv). now split.
  - split; [reflexivity|]. intros k. simpl. rewrite lookup_empty. discriminate.
Qed.

(** X3.  Only BUY and SELL nodes change the holdings, only SET_BUDGET,
    BUY and SELL nodes the budget, and only VARIABLE nodes the variables:
    a request on a graph without BUY and SELL nodes leaves holdings of 0
    BTC and 0 ETH, without SET_BUDGET nodes either a budget of 0, and
    without VARIABLE nodes no variable, whatever its outcome. *)
Theorem untouched_state_stays_initial :
  forall (W : Runtime) (fuel : nat) (payload : Payload),
    ((forall n, In n (nodes payload) ->
                is_cat (category (n_data n)) "BUY" = false
                /\ is_cat (category (n_data n)) "SELL" = false) ->
     holdings (snd (run_algo W fuel payload)) = holdings TradingContext_init
     /\ ((forall n, In n (nodes payload) ->
                    is_cat (category (n_data n)) "SET_BUDGET" = false) ->
         budget (snd (run_algo W fuel payload)) = 0%float))
    /\ ((forall n, In n (nodes payload) ->
                   is_cat (category (n_data n)) "VARIABLE" = false) ->
        vars (snd (run_algo W fuel payload)) = ∅).
Proof.
  intros W fuel payload. split.
  - intros Hnt. split.
    + apply (run_algo_keeps W payload
               (fun c => holdings c = holdings TradingContext_init)); auto.
      intros n c r c' Hn Hc Hd. destruct (Hnt n Hn) as [Hb Hs].
      apply dispatch_frame in Hd as [_ Hd]. destruct (Hd Hb Hs) as [-> _]. exact Hc.
    + intros Hnb.
      apply (run_algo_keeps W payload (fun c => budget c = 0%float)); auto.
      intros n c r c' Hn Hc Hd. destruct (Hnt n Hn) as [Hb Hs].
      apply dispatch_frame in Hd as [_ Hd]. destruct (Hd Hb Hs) as [_ Hbud].
      now rewrite (Hbud (Hnb n Hn)).
  - intros Hnv.
    apply (run_algo_keeps W payload (fun c => vars c = ∅)); auto.
    intros n c r c' Hn Hc Hd.
    apply dispatch_frame in Hd as [Hd _]. now rewrite (Hd (Hnv n Hn)).
Qed.

Lemma untouched_state_stays_initial_witness :
  vars (snd (run_algo offline 4 priced_buy)) = ∅.
Proof.
  apply (proj2 (untouched_state_stays_initial offline 4 priced_buy)).
  intros n [<-|[<-|[<-|[<-|[]]]]]; reflexivity.
Defined.

(** ** Conditions that cannot keep the exclusive-or loop running *)

Lemma no_caret_app (a b : string) :
  no_caret (a +:+ b) = no_caret a && no_caret b.
Proof.
  unfold no_caret. induction a as [|c a IH]; simpl; [reflexivity|].
  rewrite IH. now rewrite andb_assoc.
Qed.

Lemma no_caret_contains (s : string) : no_caret s = true -> contains "^^" s = false.
Proof.
  unfold no_caret. induction s as [|c s IH]; [reflexivity|].
  simpl forallb. intros H. apply andb_prop in H as [Hc Hs].
  cbn [contains String.prefix]. rewrite (IH Hs).
  destruct (Ascii.eqb_spec c "^") as [->|Hne]; [discriminate|].
  destruct (ascii_dec "^" c) as [Heq|_]; [congruence|reflexivity].
Qed.

Lemma span_operand_no_caret (s : string) :
  no_caret (fst (span is_operand_char s)) = true.
Proof.
  induction s as [|c s IH]; [reflexivity|]. simpl.
  destruct (is_operand_char c) eqn:Hc; [|reflexivity].
  destruct (span is_operand_char s) as [a b]. simpl in *.
  unfold no_caret in *. simpl. rewrite IH, andb_true_r.
  destruct (Ascii.eqb_spec c "^") as [->|]; [discriminate Hc|reflexivity].
Qed.

(** A substitution whose replacement texts hold no [^] puts none in. *)
Lemma re_sub_from_no_caret (m : matcher) :
  (forall s repl len, m s = Some (repl, len) -> no_caret repl = true) ->
  forall s skip, no_caret s = true -> no_caret (re_sub_from m skip s) = true.
Proof.
  intros Hm s. induction s as [|c s IH]; intros skip H; [reflexivity|].
  assert (no_caret s = true) as Hs.
  { unfold no_caret in *. simpl in H. now apply andb_prop in H as [_ H]. }
  simpl. destruct skip as [|k]; [|now apply IH].
  destruct (m (String c s)) as [[repl len]|] eqn:Hmatch.
  - rewrite no_caret_app, (Hm _ _ _ Hmatch). now apply IH.
  - unfold no_caret in *. simpl in *. apply andb_prop in H as [Hc _].
    rewrite Hc. now apply IH.
Qed.

Lemma rewrite_logical_no_caret (s : string) :
  no_caret s = true -> no_caret (rewrite_logical s) = true.
Proof.
  intros H. unfold rewrite_logical, str_replace, re_sub.
  repeat apply re_sub_from_no_caret; try exact H.
  - intros t repl len Hm. unfold m_literal in Hm.
    destruct (String.prefix "||" t); now simplify_eq.
  - intros t repl len Hm. unfold m_literal in Hm.
    destruct (String.prefix "&&" t); now simplify_eq.
  - intros t repl len Hm. unfold m_not_name in Hm.
    destruct t as [|c r]; [discriminate|].
    destruct (Ascii.eqb_spec c "!") as [->|Hne].
    + pose proof (span_operand_no_caret r) as Hw.
      destruct (span is_operand_char r) as [w rest]. simpl in Hw.
      destruct w as [|d w]; [discriminate|]. simplify_eq.
      now rewrite no_caret_app, Hw.
    + repeat case_match; simplify_eq.
  - intros t repl len Hm. unfold m_not_paren in Hm.
    repeat case_match; simplify_eq; reflexivity.
Qed.

(** X4.  A condition whose text, after the variables are substituted,
    holds no [^] never enters the exclusive-or loop: [evaluate_condition]
    returns (the boolean, or the error of the evaluation) without any
    iteration, and returns the same whatever the fuel. *)
Theorem caret_free_condition_returns :
  forall (W : Runtime) (cond resolved : string) (vs : gmap string pyval) (fuel : nat),
    replace_variables W cond vs = Value resolved ->
    no_caret resolved = true ->
    evaluate_condition W fuel cond vs <> OutOfFuel
    /\ evaluate_condition W fuel cond vs = evaluate_condition W 0 cond vs
    /\ evaluate_condition W fuel cond vs =
         match py_eval_bool W (rewrite_logical resolved) with
         | Value b => Ok b
         | Error e => Raise (ValueError ("Condition evaluation error: " +:+ e))
         end.
Proof.
  intros W cond resolved vs fuel Hr Hn.
  assert (forall f, evaluate_condition W f cond vs =
                    match py_eval_bool W (rewrite_logical resolved) with
                    | Value b => Ok b
                    | Error e => Raise (ValueError ("Condition evaluation error: " +:+ e))
                    end) as Hev.
  { intros f. unfold evaluate_condition. rewrite Hr.
    now rewrite xor_loop_done
      by (apply no_caret_contains, rewrite_logical_no_caret, Hn). }
  split; [|split].
  - rewrite Hev. now destruct (py_eval_bool W _).
  - now rewrite !Hev.
  - apply Hev.
Qed.

Lemma caret_free_condition_returns_witness :
  evaluate_condition offline 0 "True" ∅ <> OutOfFuel.
Proof.
  exact (proj1 (caret_free_condition_returns offline "True" "True" ∅ 0 eq_refl eq_refl)).
Defined.

(** ** The walk returns *)

Lemma risk_loop_returns (W : Runtime) (vs : gmap string pyval) (items : list RiskInput)
    (w_sum w_total : float) :
  risk_loop W vs items w_sum w_total <> OutOfFuel.
Proof.
  revert w_sum w_total. induction items as [|item rest IH]; intros w_sum w_total;
    [discriminate|].
  simpl. unfold risk_value, float_or_0.
  repeat case_match; simpl; try discriminate; apply IH.
Qed.

(** Dispatch has no loop of its own: it returns or raises. *)
Lemma dispatch_returns (W : Runtime) (cat : option string) (data : NodeData)
    (c c' : TradingContext) (r : Res unit) :
  dispatch W cat data c = (r, c') -> r <> OutOfFuel.
Proof.
  unfold dispatch, trade, risk_analysis, float_or_0. intros H.
  repeat case_match; simplify_eq; try discriminate.
  all: match goal with
       | Hx : bind_res (risk_loop ?W ?v ?i ?a ?b) _ = OutOfFuel |- _ =>
           pose proof (risk_loop_returns W v i a b);
           destruct (risk_loop W v i a b) as [[? ?]| |]; simpl in Hx; congruence
       end.
Qed.

Lemma node_map_size_from (ns : list Node) (m : gmap string Node) :
  size (foldl (fun m n => <[n_id n := n]> m) m ns) <= size m + length ns.
Proof.
  revert m. induction ns as [|n ns IH]; intros m; simpl; [lia|].
  etransitivity; [apply IH|].
  rewrite map_size_insert. destruct (m !! n_id n); unfold id; simpl; lia.
Qed.

Lemma unvisited_le_length (ns : list Node) (st : St) : unvisited ns st <= length ns.
Proof.
  unfold unvisited.
  transitivity (size (dom (node_map ns)));
    [apply subseteq_size, subseteq_difference_l; reflexivity|].
  rewrite size_dom. unfold node_map.
  pose proof (node_map_size_from ns ∅) as H. now rewrite map_size_empty in H.
Qed.

(** *** The variables of a run *)

Lemma news_headline (i : nat) : In (nth (i mod 3) news "") news.
Proof.
  assert (i mod 3 < 3)%nat as Hlt by (apply Nat.mod_upper_bound; discriminate).
  revert Hlt. generalize (i mod 3). intros j Hlt.
  destruct j as [|[|[|j]]]; simpl; auto. lia.
Qed.

Lemma run_context_log (t : string) (m : list frag) (c : TradingContext) :
  run_context c -> run_context (log t m c).
Proof. intros H. exact H. Qed.

(** Dispatch keeps the variables storable, whatever its outcome. *)
Lemma dispatch_run_context (W : Runtime) (cat : option string) (data : NodeData)
    (c c' : TradingContext) (r : Res unit) :
  run_context c -> dispatch W cat data c = (r, c') -> run_context c'.
Proof.
  intros [Hv Hl] H.
  assert (forall k v, storable v -> storable_vars (<[k := v]> (vars c))) as Hstore.
  { intros k v Hs name v0. rewrite lookup_insert_Some.
    intros [[_ <-]|[_ H0]]; [exact Hs|exact (Hv _ _ H0)]. }
  unfold dispatch, trade, risk_analysis, float_or_0 in H.
  repeat case_match; simplify_eq; unfold run_context; simpl;
    (split;
     [ first [ exact Hv
             | apply Hstore; destruct Hl as [Hl|Hl]; [discriminate Hl|exact Hl] ]
     | first [ now left
             | right; left; eexists; reflexivity
             | right; right; eexists; split; [reflexivity|apply news_headline]
             | exact Hl ] ]).
Qed.

Section Termination.
Context (W : Runtime) (nodes : list Node) (edges : list Edge) (k : nat).
Context (P : TradingContext -> Prop).
Hypothesis P_log : forall t m c, P c -> P (log t m c).
Hypothesis P_dispatch :
  forall n c r c',
    In n nodes -> P c ->
    dispatch W (category (n_data n)) (n_data n) c = (r, c') -> P c'.
Hypothesis conditions_return :
  forall n, In n nodes ->
    is_cat (category (n_data n)) "CONDITION" = true ->
    forall f c, P c -> k <= f ->
      evaluate_condition W f (strip (default "" (condition (n_data n)))) (vars c)
        <> OutOfFuel.

Lemma for_each_returns {A : Type} (body : A -> St -> Res unit * St) (fuel : nat) :
  (forall x st r st', body x st = (r, st') -> extends st st') ->
  (forall x st st' r, body x st = (r, st') -> P (ctx st) -> P (ctx st')) ->
  (forall x st, P (ctx st) -> unvisited nodes st + k < fuel ->
                fst (body x st) <> OutOfFuel) ->
  forall l st, P (ctx st) -> unvisited nodes st + k < fuel ->
               fst (for_each body l st) <> OutOfFuel.
Proof.
  intros Hext Hkeep Hret l. induction l as [|x l IH]; intros st HP Hm; [discriminate|].
  rewrite for_each_cons.
  pose proof (Hret x st HP Hm) as Hx.
  destruct (body x st) as [r1 st1] eqn:Hb.
  destruct r1 as [[]|e|]; [|discriminate|exact Hx].
  apply IH; [exact (Hkeep _ _ _ _ Hb HP)|].
  apply Hext in Hb as [Hv _].
  assert (unvisited nodes st1 <= unvisited nodes st); [|lia].
  apply subseteq_size. intros x0. rewrite !elem_of_difference.
  intros [Hd Hn]. split; [exact Hd|]. intros Hx0. apply Hn, Hv, Hx0.
Qed.

Lemma execute_from_node_returns (fuel : nat) :
  forall id st, P (ctx st) -> unvisited nodes st + k < fuel ->
    fst (execute_from_node W nodes edges fuel id st) <> OutOfFuel.
Proof.
  induction fuel as [|fuel IH]; intros id st HP Hm; [lia|].
  pose proof (execute_from_node_keeps W nodes edges P P_log P_dispatch fuel) as Hkeep.
  rewrite execute_from_node_S. unfold visit.
  destruct (decide (id ∈ visited st)) as [Hin|Hin]; [discriminate|].
  destruct (node_map nodes !! id) as [n|] eqn:Hn; [|discriminate].
  set (st0 := {| ctx := ctx st; visited := {[id]} ∪ visited st |}).
  assert (forall c, unvisited nodes {| ctx := c; visited := visited st0 |} + k < fuel) as Hm0.
  { intros c. assert (unvisited nodes {| ctx := c; visited := visited st0 |}
                      < unvisited nodes st); [|lia].
    apply subset_size. simpl.
    assert (id ∈ dom (node_map nodes)) as Hid by (apply elem_of_dom; eauto).
    split.
    - intros x0. rewrite !elem_of_difference, elem_of_union. intros [Hd Hx0].
      split; [exact Hd|]. intros Hv. apply Hx0. now right.
    - intros Hsub. specialize (Hsub id).
      rewrite !elem_of_difference, elem_of_union, elem_of_singleton in Hsub.
      destruct Hsub as [_ Hsub]; [now split|]. apply Hsub. now left. }
  pose proof (node_map_In _ _ _ Hn) as [Hnode _].
  destruct (is_cat (category (n_data n)) "CONDITION") eqn:Hc.
  - destruct (strip (default "" (condition (n_data n)))) as [|ch cond'] eqn:Hcond;
      [discriminate|].
    pose proof (conditions_return n Hnode Hc fuel (ctx st0) HP ltac:(lia)) as Hev.
    rewrite Hcond in Hev.
    destruct (evaluate_condition W fuel _ _) as [result|e|]; [|discriminate|congruence].
    match goal with |- context [for_each ?b ?l ?s] =>
      pose proof (for_each_returns b fuel
                    (branch_extends _ result (execute_from_node_extends W nodes edges fuel))) as Hl;
      specialize (Hl ltac:(intros [t h] s0 s1 r0 Hs0; unfold branch in Hs0;
                           repeat case_match; simplify_eq; eauto));
      specialize (Hl ltac:(intros [t h] s0 HP0 Hs0; unfold branch;
                           repeat case_match; try discriminate; now apply IH) l s);
      destruct (for_each b l s) as [r2 st2]
    end.
    specialize (Hl (P_log _ _ _ HP) (Hm0 _)).
    now destruct r2 as [[]|e|].
  - destruct (dispatch W _ _ _) as [r1 c1] eqn:Hd.
    pose proof (P_dispatch _ _ _ _ Hnode HP Hd) as HP1.
    apply dispatch_returns in Hd.
    destruct r1 as [[]|e|]; [|discriminate|congruence].
    apply (for_each_returns _ fuel (execute_from_node_extends W nodes edges fuel)).
    + intros x s s' r0 Hx. eapply Hkeep; exact Hx.
    + exact IH.
    + exact HP1.
    + apply Hm0.
Qed.

Lemma run_starts_returns (fuel : nat) :
  length nodes + k < fuel ->
  forall starts c, P c -> fst (run_starts W nodes edges fuel starts c) <> OutOfFuel.
Proof.
  intros Hfuel starts. induction starts as [|x l IH]; intros c HP; [discriminate|].
  simpl. unfold execute_top.
  pose proof (execute_from_node_returns fuel x {| ctx := c; visited := ∅ |} HP) as Hx.
  destruct (execute_from_node W _ _ fuel x _) as [r1 st1] eqn:Hs.
  assert (r1 <> OutOfFuel) as Hr1.
  { apply Hx. pose proof (unvisited_le_length nodes {| ctx := c; visited := ∅ |}). lia. }
  apply (execute_from_node_keeps W nodes edges P P_log P_dispatch) in Hs; [|exact HP].
  destruct r1 as [[]|e|]; [now apply IH|discriminate|congruence].
Qed.

End Termination.

(** The condition of the payload [priced_xor] returns after one rewrite
    on every map of storable values. *)
Lemma priced_xor_condition_returns (f : nat) (vs : gmap string pyval) :
  storable_vars vs -> 1 <= f ->
  evaluate_condition offline f "{price} ^^ limit" vs <> OutOfFuel.
Proof.
  intros Hvs Hf. destruct f as [|f]; [lia|].
  unfold evaluate_condition, replace_variables.
  assert (replace_variables_from offline 0 "{price} ^^ limit" vs =
            match vs !! "price" with
            | Some v => Value (py_str offline v +:+ " ^^ limit")
            | None => Error "Variable 'price' not found"
            end) as -> by reflexivity.
  destruct (vs !! "price") as [v|] eqn:Hv; [|discriminate].
  destruct (Hvs _ _ Hv) as [[x ->]|[s [-> Hs]]].
  - simpl py_str.
    rewrite xor_loop_step by reflexivity. rewrite xor_loop_done by reflexivity.
    destruct (py_eval_bool offline _); discriminate.
  - simpl py_str.
    destruct Hs as [<-|[<-|[<-|[]]]];
      (rewrite xor_loop_step by reflexivity; rewrite xor_loop_done by reflexivity;
       destruct (py_eval_bool offline _); discriminate).
Qed.

(** X5.  The walk ends on every graph, cycles included.  The variables
    of a run hold numbers and headlines only (what [last_output] can hand
    to a VARIABLE node); when the condition of every CONDITION node is
    one whose evaluation returns on every such variable map (within [k]
    rewrites of its exclusive-or loop), a request returns a response or
    an exception, and the nesting of the calls of [execute_from_node]
    stays within the number of nodes plus one.  The variables the request
    leaves behind are of that kind. *)
Theorem run_algo_returns :
  forall (W : Runtime) (payload : Payload) (k fuel : nat),
    (forall n, In n (nodes payload) ->
       is_cat (category (n_data n)) "CONDITION" = true ->
       forall f vs, storable_vars vs -> k <= f ->
         evaluate_condition W f (strip (default "" (condition (n_data n)))) vs
           <> OutOfFuel) ->
    length (nodes payload) + k < fuel ->
    fst (run_algo W fuel payload) <> OutOfFuel
    /\ storable_vars (vars (snd (run_algo W fuel payload))).
Proof.
  intros W payload k fuel Hcond Hfuel.
  assert (run_context TradingContext_init) as H0.
  { split; [|now left]. intros name v Hv. simpl in Hv. now rewrite lookup_empty in Hv. }
  split.
  - unfold run_algo.
    destruct (start_nodes (nodes payload)) as [|s starts]; [discriminate|].
    pose proof (run_starts_returns W (nodes payload) (edges payload) k run_context
                  run_context_log
                  (fun n c r c' _ HP Hd => dispatch_run_context W _ _ c c' r HP Hd)
                  (fun n Hn Hc f c HP Hf => Hcond n Hn Hc f (vars c) (proj1 HP) Hf)
                  fuel Hfuel (s :: starts) TradingContext_init H0) as Hrun.
    destruct (run_starts W _ _ fuel (s :: starts) _) as [[[]|e|] c]; simpl in *;
      [discriminate|discriminate|congruence].
  - apply (run_algo_keeps W payload run_context run_context_log
             (fun n c r c' _ HP Hd => dispatch_run_context W _ _ c c' r HP Hd) H0 fuel).
Qed.

Lemma run_algo_returns_witness :
  fst (run_algo offline 7 priced_xor) <> OutOfFuel.
Proof.
  apply (run_algo_returns offline priced_xor 1 7); [|simpl; lia].
  intros n [<-|[<-|[<-|[<-|[<-|[]]]]]] Hc f vs Hvs Hf; try discriminate Hc.
  now apply priced_xor_condition_returns.
Defined.

(** ** SELL *)

(** X6.  A SELL whose ticker has a holdings entry succeeds exactly when
    [amount <= holdings[ticker]]: the budget grows by [amount * price],
    the holdings shrink by [amount] and the sale is logged; otherwise the
    failure is logged and budget and holdings stay as they are.  Either
    way the node returns normally and clears [last_output]; the budget
    plays no part in the check. *)
Theorem sell_of_known_ticker :
  forall (W : Runtime) (data : NodeData) (c : TradingContext) (amt h : float),
    float_or_0 W (manualValue data) = Ok amt ->
    holdings c !! default "BTC" (ticker data) = Some h ->
    exists c',
      trade W (Some "SELL") data c = (Ok tt, c')
      /\ last_output c' = PNone
      /\ vars c' = vars c
      /\ ((amt <=? h)%float = true ->
          budget c' = (budget c + amt * price_of (last_output c))%float
          /\ holdings c' = <[default "BTC" (ticker data) := (h - amt)%float]> (holdings c)
          /\ logs c' = logs c ++
               [LogLine "TRADE"
                  [Txt "SOLD "; FNum amt; Txt " "; Txt (default "BTC" (ticker data));
                   Txt " @ $"; FNum2 (price_of (last_output c))]])
      /\ ((amt <=? h)%float = false ->
          budget c' = budget c
          /\ holdings c' = holdings c
          /\ logs c' = logs c ++
               [LogLine "TRADE" [Txt "FAILED: Insufficient funds or holdings"]]).
Proof.
  intros W data c amt h Hamt Hh. unfold trade. rewrite Hamt.
  change (is_cat (Some "SELL") "BUY") with false.
  change (is_cat (Some "SELL") "SELL") with true.
  simpl andb. cbv iota. rewrite Hh.
  destruct (amt <=? h)%float eqn:Hle.
  - eexists. split; [reflexivity|]. repeat split; discriminate.
  - eexists. split; [reflexivity|]. repeat split; discriminate.
Qed.

Lemma sell_of_known_ticker_witness :
  exists c',
    trade offline (Some "SELL") (trade_of "SELL" "ETH" 1) holding_seven = (Ok tt, c')
    /\ logs c' = [LogLine "TRADE" [Txt "FAILED: Insufficient funds or holdings"]].
Proof.
  destruct (sell_of_known_ticker offline (trade_of "SELL" "ETH" 1) holding_seven 1 0
              eq_refl eq_refl) as (c' & Ht & _ & _ & _ & Hfail).
  exists c'. split; [exact Ht|]. now destruct (Hfail eq_refl) as (_ & _ & ->).
Defined.

(** ** VARIABLE and OUTPUT *)

(** X7.  A VARIABLE node with a name that is not blank, reached with a
    value in [last_output], stores the value under the stripped name,
    leaves the other variables alone and clears [last_output]; an OUTPUT
    node that follows logs the value when its [variableName] is that
    stripped name.  OUTPUT does not strip: when the same name is written
    with spaces around it in both nodes, the value is stored and the
    OUTPUT node logs [NULL] (unless a variable of the padded name
    exists). *)
Theorem variable_then_output :
  forall (W : Runtime) (data : NodeData) (c : TradingContext) (raw : string),
    variableName data = Some raw ->
    strip raw <> "" ->
    last_output c <> PNone ->
    exists c1,
      dispatch W (Some "VARIABLE") data c = (Ok tt, c1)
      /\ vars c1 = <[strip raw := last_output c]> (vars c)
      /\ last_output c1 = PNone
      /\ budget c1 = budget c /\ holdings c1 = holdings c
      /\ dispatch W (Some "OUTPUT") (output_of (strip raw)) c1 =
           (Ok tt, set_last_output PNone
                     (log "OUTPUT" [Txt (strip raw); Txt " => "; FVal (last_output c)] c1))
      /\ (raw <> strip raw -> vars c !! raw = None ->
          dispatch W (Some "OUTPUT") (output_of raw) c1 =
            (Ok tt, set_last_output PNone
                      (log "OUTPUT" [Txt raw; Txt " => "; FVal (PStr "NULL")] c1))).
Proof.
  intros W data c raw Hname Hne Hlast.
  unfold dispatch at 1. simpl is_cat. cbv iota. rewrite Hname. simpl default.
  destruct (strip raw) as [|ch name] eqn:Hs; [congruence|].
  destruct (last_output c) as [|x|s] eqn:Hl; [congruence| |].
  - eexists. split; [reflexivity|]. repeat split.
    + unfold dispatch. simpl. now rewrite lookup_insert_eq.
    + intros Hraw Hnone. unfold dispatch. simpl.
      rewrite lookup_insert_ne by congruence. now rewrite Hnone.
  - eexists. split; [reflexivity|]. repeat split.
    + unfold dispatch. simpl. now rewrite lookup_insert_eq.
    + intros Hraw Hnone. unfold dispatch. simpl.
      rewrite lookup_insert_ne by congruence. now rewrite Hnone.
Qed.

Lemma variable_then_output_witness :
  exists c1,
    dispatch offline (Some "VARIABLE") (variable_of padded_name) holding_seven = (Ok tt, c1)
    /\ vars c1 !! "x" = Some (PNum 7)
    /\ dispatch offline (Some "OUTPUT") (output_of padded_name) c1 =
         (Ok tt, set_last_output PNone
                   (log "OUTPUT" [Txt padded_name; Txt " => "; FVal (PStr "NULL")] c1)).
Proof.
  destruct (variable_then_output offline (variable_of padded_name) holding_seven
              padded_name eq_refl ltac:(discriminate) ltac:(discriminate))
    as (c1 & Hd & Hv & _ & _ & _ & _ & Hpad).
  exists c1. split; [exact Hd|]. split.
  - rewrite Hv. apply lookup_insert_eq.
  - apply Hpad; [discriminate|reflexivity].
Defined.

(** ** Dead ends of the walk *)

(** X8.  A CONDITION node whose condition is blank, or fails to
    evaluate, is a dead end: the first visit logs the warning or the
    error, returns normally and walks none of the outgoing edges,
    whatever their handles; only the node itself is added to
    [visited]. *)
Theorem condition_without_result_is_a_dead_end :
  forall (W : Runtime) (nodes : list Node) (edges : list Edge) (fuel : nat)
         (id : string) (st : St) (n : Node),
    id ∉ visited st ->
    node_map nodes !! id = Some n ->
    category (n_data n) = Some "CONDITION" ->
    (strip (default "" (condition (n_data n))) = "" ->
     execute_from_node W nodes edges (S fuel) id st =
       (Ok tt, log_st "CONDITION" [Txt "WARNING: No condition provided"]
                 {| ctx := ctx st; visited := {[id]} ∪ visited st |}))
    /\ (forall e,
           strip (default "" (condition (n_data n))) <> "" ->
           evaluate_condition W fuel (strip (default "" (condition (n_data n))))
             (vars (ctx st)) = Raise e ->
           execute_from_node W nodes edges (S fuel) id st =
             (Ok tt, log_st "CONDITION" [Txt "ERROR: "; Txt (exn_str e)]
                       {| ctx := ctx st; visited := {[id]} ∪ visited st |})).
Proof.
  intros W nodes edges fuel id st n Hin Hn Hc.
  rewrite execute_from_node_S. unfold visit.
  rewrite decide_False by exact Hin. rewrite Hn. simpl. rewrite Hc. simpl.
  split.
  - intros ->. reflexivity.
  - intros e Hne He.
    destruct (strip (default "" (condition (n_data n)))) as [|ch cond']; [congruence|].
    simpl in He. now rewrite He.
Qed.

Lemma condition_without_result_is_a_dead_end_witness :
  execute_from_node offline
    [Build_Node "c" (condition_of "  "); Build_Node "y" (output_of "yes_side")]
    [edge_on "yes" "c" "y"; edge "c" "y"] 3 "c" fresh =
    (Ok tt, log_st "CONDITION" [Txt "WARNING: No condition provided"]
              {| ctx := TradingContext_init; visited := {["c"]} ∪ ∅ |}).
Proof.
  apply (proj1 (condition_without_result_is_a_dead_end offline
                  [Build_Node "c" (condition_of "  "); Build_Node "y" (output_of "yes_side")]
                  [edge_on "yes" "c" "y"; edge "c" "y"] 2 "c" fresh
                  (Build_Node "c" (condition_of "  "))
                  ltac:(apply not_elem_of_empty) eq_refl eq_refl)).
  reflexivity.
Defined.

(** X9.  An id that no node of the payload has (the target of a dangling
    edge) raises [KeyError] when the walk first reaches it; the id is put
    into [visited] before the lookup, so a later arrival in the same walk
    returns at once without raising. *)
Theorem dangling_target_raises_once :
  forall (W : Runtime) (nodes : list Node) (edges : list Edge) (fuel fuel2 : nat)
         (id : string) (st : St),
    id ∉ visited st ->
    node_map nodes !! id = None ->
    execute_from_node W nodes edges (S fuel) id st =
      (Raise (KeyError id), {| ctx := ctx st; visited := {[id]} ∪ visited st |})
    /\ (forall st2,
           extends {| ctx := ctx st; visited := {[id]} ∪ visited st |} st2 ->
           execute_from_node W nodes edges (S fuel2) id st2 = (Ok tt, st2)).
Proof.
  intros W nodes edges fuel fuel2 id st Hin Hn. split.
  - rewrite execute_from_node_S. unfold visit.
    rewrite decide_False by exact Hin. now rewrite Hn.
  - intros st2 [Hv _]. apply execute_from_node_revisit. apply Hv. simpl.
    apply elem_of_union. left. now apply elem_of_singleton.
Qed.

Lemma dangling_target_raises_once_witness :
  execute_from_node offline [Build_Node "s" (plain "START")] [edge "s" "ghost"] 1
    "ghost" fresh =
    (Raise (KeyError "ghost"), {| ctx := TradingContext_init; visited := {["ghost"]} ∪ ∅ |}).
Proof.
  exact (proj1 (dangling_target_raises_once offline [Build_Node "s" (plain "START")]
                  [edge "s" "ghost"] 0 0 "ghost" fresh
                  ltac:(apply not_elem_of_empty) eq_refl)).
Defined.

(** ** Duplicate ids *)

Lemma node_map_snoc (ns : list Node) (n : Node) :
  node_map (ns ++ [n]) = <[n_id n := n]> (node_map ns).
Proof. unfold node_map. now rewrite foldl_app. Qed.

(** X10.  [node_map] answers, for an id, the last node of the list with
    that id (and nothing when there is none): a later node replaces an
    earlier one with the same id, while [start_nodes] still lists the id
    of every START node, replaced or not. *)
Theorem node_map_keeps_the_last_node :
  forall (ns : list Node) (id : string),
    node_map ns !! id = last (filter (fun n => n_id n = id) ns)
    /\ (In id (start_nodes ns) <->
        exists n, In n ns /\ n_id n = id /\ category (n_data n) = Some "START").
Proof.
  intros ns id. split.
  - induction ns as [|n ns IH] using rev_ind; [reflexivity|].
    rewrite node_map_snoc, filter_app, filter_cons, filter_nil.
    destruct (decide (n_id n = id)) as [Hid|Hid].
    + rewrite last_snoc. subst id. apply lookup_insert_eq.
    + rewrite app_nil_r, lookup_insert_ne by exact Hid. exact IH.
  - unfold start_nodes. rewrite in_map_iff. split.
    + intros (n & Hid & Hn). apply list_elem_of_In, list_elem_of_filter in Hn as [Hc Hn].
      exists n. rewrite <- list_elem_of_In. repeat split; try assumption.
      unfold is_cat in Hc. destruct (category (n_data n)) as [c|]; [|discriminate].
      apply String.eqb_eq in Hc. now subst.
    + intros (n & Hn & Hid & Hc). exists n. split; [exact Hid|].
      apply list_elem_of_In, list_elem_of_filter. rewrite list_elem_of_In.
      split; [|exact Hn]. now rewrite Hc.
Qed.

Example clashing_ids_dispatch_the_later_node :
  node_map clashing_ids !! "a" = Some (Build_Node "a" (math_of "10"))
  /\ start_nodes clashing_ids = ["a"]
  /\ logs (snd (run_algo offline 3 {| nodes := clashing_ids; edges := [] |})) =
       [LogLine "MATH" [Txt "Calculated: "; Txt "10"; Txt " = "; FNum 10]].
Proof. repeat split; vm_compute; reflexivity. Qed.

(** ** Substitution of the variables *)

Lemma append_nil (b : string) : "" +:+ b = b.
Proof. reflexivity. Qed.

Lemma append_cons (c : ascii) (a b : string) : String c a +:+ b = String c (a +:+ b).
Proof. reflexivity. Qed.

Lemma append_nil_r (a : string) : a +:+ "" = a.
Proof. induction a as [|c a IH]; [reflexivity|]. now rewrite append_cons, IH. Qed.

Lemma append_assoc (a b c : string) : (a +:+ b) +:+ c = a +:+ (b +:+ c).
Proof. induction a as [|x a IH]; [reflexivity|]. now rewrite !append_cons, IH. Qed.

Lemma span_all (p : ascii -> bool) (a rest : string) :
  all_chars p a = true ->
  match rest with String c _ => p c = false | EmptyString => True end ->
  span p (a +:+ rest) = (a, rest).
Proof.
  unfold all_chars. induction a as [|c a IH]; intros Ha Hrest.
  - rewrite append_nil. destruct rest as [|c r]; [reflexivity|]. simpl. now rewrite Hrest.
  - simpl in Ha. apply andb_prop in Ha as [Hc Ha]. rewrite append_cons. simpl. rewrite Hc.
    now rewrite (IH Ha Hrest).
Qed.

Lemma replace_variables_skip (W : Runtime) (a b : string) (vs : gmap string pyval) (k : nat) :
  replace_variables_from W (String.length a + k) (a +:+ b) vs =
  replace_variables_from W k b vs.
Proof.
  induction a as [|c a IH]; [reflexivity|]. rewrite append_cons. simpl. exact IH.
Qed.

Lemma replace_variables_from_head (W : Runtime) (c : ascii) (s : string)
    (vs : gmap string pyval) :
  replace_variables_from W 0 (String c s) vs =
    match m_var (String c s) with
    | Some (var_name, len) =>
        match vs !! var_name with
        | Some v =>
            match replace_variables_from W (pred len) s vs with
            | Value r => Value (py_str W v +:+ r)
            | Error e => Error e
            end
        | None => Error ("Variable '" +:+ var_name +:+ "' not found")
        end
    | None =>
        match replace_variables_from W 0 s vs with
        | Value r => Value (String c r)
        | Error e => Error e
        end
    end.
Proof. reflexivity. Qed.

(** Text without an opening brace is copied. *)
Lemma replace_variables_copy (W : Runtime) (vs : gmap string pyval) (pre tail : string) :
  all_chars (fun c => negb (Ascii.eqb c "{")) pre = true ->
  replace_variables_from W 0 (pre +:+ tail) vs =
    match replace_variables_from W 0 tail vs with
    | Value r => Value (pre +:+ r)
    | Error e => Error e
    end.
Proof.
  unfold all_chars. induction pre as [|c pre IH]; intros Hpre.
  - rewrite append_nil. now destruct (replace_variables_from W 0 tail vs).
  - simpl in Hpre. apply andb_prop in Hpre as [Hc Hpre].
    rewrite append_cons, replace_variables_from_head.
    assert (m_var (String c (pre +:+ tail)) = None) as ->.
    { unfold m_var. destruct (Ascii.eqb_spec c "{") as [->|Hb]; [discriminate|].
      repeat case_match; congruence. }
    rewrite (IH Hpre).
    now destruct (replace_variables_from W 0 tail vs).
Qed.

(** X11.  [replace_variables] copies text that holds no opening brace as
    it is, and replaces a placeholder [{name}] (a non-empty name of
    letters, digits and underscores) after such text by [str] of the
    variable, going on with the text behind it; when [name] is not a
    variable the call raises [Variable 'name' not found] and what follows
    is not looked at. *)
Theorem replace_variables_placeholder :
  forall (W : Runtime) (vs : gmap string pyval) (pre name post : string),
    all_chars (fun c => negb (Ascii.eqb c "{")) pre = true ->
    all_chars is_word name = true ->
    name <> "" ->
    replace_variables W pre vs = Value pre
    /\ replace_variables W (pre +:+ "{" +:+ name +:+ "}" +:+ post) vs =
         match vs !! name with
         | None => Error ("Variable '" +:+ name +:+ "' not found")
         | Some v =>
             match replace_variables W post vs with
             | Value r => Value (pre +:+ py_str W v +:+ r)
             | Error e => Error e
             end
         end.
Proof.
  intros W vs pre name post Hpre Hname Hne. unfold replace_variables. split.
  - pose proof (replace_variables_copy W vs pre "" Hpre) as H.
    change (replace_variables_from W 0 "" vs) with (@Value string "") in H.
    cbv iota in H. now rewrite !append_nil_r in H.
  - rewrite (replace_variables_copy W vs pre _ Hpre).
    rewrite !append_cons, !append_nil, replace_variables_from_head. unfold m_var.
    rewrite (span_all is_word name (String "}" post) Hname eq_refl).
    destruct name as [|ch name]; [congruence|].
    destruct (vs !! String ch name) as [v|]; [|reflexivity].
    replace (Init.Nat.pred (2 + String.length (String ch name)))
      with (String.length (String ch name +:+ "}") + 0)%nat.
    + rewrite <- (append_nil post) at 1. rewrite <- append_cons, <- append_assoc.
      rewrite replace_variables_skip.
      now destruct (replace_variables_from W 0 post vs).
    + simpl. f_equal. clear. induction name as [|c s IH]; [reflexivity|].
      rewrite append_cons. simpl. now rewrite IH.
Qed.

Lemma replace_variables_placeholder_witness :
  replace_variables offline "1 + {x} * 2" ∅ = Error "Variable 'x' not found".
Proof.
  exact (proj2 (replace_variables_placeholder offline ∅ "1 + " "x" " * 2"
                  eq_refl eq_refl ltac:(discriminate))).
Defined.

(** ** Text in a risk entry *)

(** X12.  A risk entry whose value names a variable that holds text
    which is not a number makes the RISK_ANALYSIS node raise the
    [ValueError] of [float()]: the conversion of a variable is outside the
    [try], so the node logs nothing and leaves the context as it is.  The
    same text written into the entry itself (and naming no variable) is
    caught and counts as 0. *)
Theorem risk_entry_naming_text_raises :
  forall (W : Runtime) (c : TradingContext) (data : NodeData) (item : RiskInput)
         (rest : list RiskInput) (name t e : string),
    riskInputs data = item :: rest ->
    value item = Some (JStr name) ->
    vars c !! name = Some (PStr t) ->
    float_of_str W t = Error e ->
    dispatch W (Some "RISK_ANALYSIS") data c = (Raise (ValueError e), c)
    /\ (vars c !! t = None -> risk_value W (vars c) (JStr t) = Ok 0%float).
Proof.
  intros W c data item rest name t e Hin Hv Hvar Ht. split.
  - unfold dispatch. simpl is_cat. cbv iota.
    unfold risk_analysis. rewrite Hin. simpl risk_loop. rewrite Hv. simpl default.
    unfold risk_value. now rewrite Hvar, Ht.
  - intros Hnone. unfold risk_value. now rewrite Hnone, Ht.
Qed.

Lemma risk_entry_naming_text_raises_witness :
  dispatch offline (Some "RISK_ANALYSIS")
    (risk_of [ {| value := Some (JStr "mood"); weight := Some (JNum 1) |} ])
    mood_is_headline =
    (Raise (ValueError "could not convert string to float: 'Market bullish on ETF news'"),
     mood_is_headline).
Proof.
  exact (proj1 (risk_entry_naming_text_raises offline mood_is_headline
                  (risk_of [ {| value := Some (JStr "mood"); weight := Some (JNum 1) |} ])
                  {| value := Some (JStr "mood"); weight := Some (JNum 1) |} []
                  "mood" "Market bullish on ETF news"
                  "could not convert string to float: 'Market bullish on ETF news'"
                  eq_refl eq_refl eq_refl eq_refl)).
Defined.

(** ** The sentiment score *)

Lemma clamp_range (x : float) :
  (-1 <=? py_max (-1) (py_min 1 x))%float = true
  /\ (py_max (-1) (py_min 1 x) <=? 1)%float = true.
Proof.
  unfold py_max, py_min.
  destruct (x <? 1)%float eqn:Hx.
  - destruct (-1 <? x)%float eqn:Hy.
    + split; now apply ltb_leb.
    + split; reflexivity.
  - split; reflexivity.
Qed.

(** X13.  When the LLM client answers with a number, whatever the
    number (NaN and the infinities included), the score that SEND_TO_LLM
    logs and hands on in [last_output] lies in [-1, 1]; the node changes
    nothing else. *)
Theorem llm_score_is_clamped :
  forall (W : Runtime) (data : NodeData) (c : TradingContext) (x : float),
    llm_reply W (default (PStr "neutral") (vars c !! default "" (variableName data))) c
      = Some x ->
    exists s,
      dispatch W (Some "SEND_TO_LLM") data c =
        (Ok tt, set_last_output (PNum s) (log "GEMINI" [Txt "Sentiment: "; FNum2 s] c))
      /\ (-1 <=? s)%float = true /\ (s <=? 1)%float = true.
Proof.
  intros W data c x Hx. exists (py_max (-1) (py_min 1 x)). split.
  - unfold dispatch. simpl is_cat. cbv iota. now rewrite Hx.
  - apply clamp_range.
Qed.

Lemma llm_score_is_clamped_witness :
  exists s,
    dispatch (replying 5) (Some "SEND_TO_LLM") (plain "SEND_TO_LLM") TradingContext_init =
      (Ok tt, set_last_output (PNum s)
                (log "GEMINI" [Txt "Sentiment: "; FNum2 s] TradingContext_init))
    /\ (-1 <=? s)%float = true /\ (s <=? 1)%float = true.
Proof.
  exact (llm_score_is_clamped (replying 5) (plain "SEND_TO_LLM") TradingContext_init 5
           eq_refl).
Defined.

(** ** One line per dispatch *)

Lemma trade_outcome (W : Runtime) (cat : option string) (data : NodeData)
    (c c' : TradingContext) (r : Res unit) :
  trade W cat data c = (r, c') ->
  (r = Ok tt /\ last_output c' = PNone /\ exists line, logs c' = logs c ++ [line])
  \/ (exists e, r = Raise e /\ logs c' = logs c /\ holdings c' = holdings c
                /\ vars c' = vars c /\ last_output c' = last_output c).
Proof.
  unfold trade, float_or_0. intros H.
  repeat case_match; simplify_eq; simpl;
    solve [ left; repeat split; eexists; reflexivity
          | right; eexists; repeat split; reflexivity ].
Qed.

(** X14.  The dispatch of a node that is not a CONDITION node (those
    are handled by the walk itself) either returns normally or raises.
    When it returns, a node of one of the twelve handled categories has
    appended exactly one line to the log, and a node of any other
    category (or of none) has changed nothing at all.  When it raises, the
    category is
    SET_BUDGET, SCRAPE_BTC, SCRAPE_ETH, RISK_ANALYSIS, BUY or SELL (START,
    VARIABLE, MATH, NEWS_SCRAPER, SEND_TO_LLM and OUTPUT never raise), and
    log, holdings, variables and [last_output] are as they were. *)
Theorem dispatch_logs_one_line_or_raises :
  forall (W : Runtime) (cat : option string) (data : NodeData)
         (c c' : TradingContext) (r : Res unit),
    is_cat cat "CONDITION" = false ->
    dispatch W cat data c = (r, c') ->
    (r = Ok tt
     /\ (dispatched_category cat = true -> exists line, logs c' = logs c ++ [line])
     /\ (dispatched_category cat = false -> c' = c))
    \/ (exists e,
           r = Raise e /\ raising_category cat = true
           /\ logs c' = logs c /\ holdings c' = holdings c
           /\ vars c' = vars c /\ last_output c' = last_output c).
Proof.
  intros W cat data c c' r _. unfold dispatch, dispatched_category, raising_category.
  simpl existsb.
  destruct (is_cat cat "START") eqn:H1.
  { intros H. simplify_eq. left. simpl. split; [reflexivity|].
    split; [intros _; eexists; reflexivity|discriminate]. }
  destruct (is_cat cat "VARIABLE") eqn:H2.
  { intros H. left.
    repeat case_match; simplify_eq; simpl; (split; [reflexivity|]);
      (split; [intros _; eexists; reflexivity|discriminate]). }
  destruct (is_cat cat "MATH") eqn:H3.
  { intros H. left.
    repeat case_match; simplify_eq; simpl; (split; [reflexivity|]);
      (split; [intros _; eexists; reflexivity|discriminate]). }
  destruct (is_cat cat "SET_BUDGET") eqn:H4.
  { intros H. unfold float_or_0 in H.
    repeat case_match; simplify_eq; simpl;
      solve [ left; (split; [reflexivity|]);
              (split; [intros _; eexists; reflexivity|discriminate])
            | right; eexists; repeat split; reflexivity ]. }
  destruct (is_cat cat "SCRAPE_BTC") eqn:H5.
  { intros H. simpl in H.
    repeat case_match; simplify_eq; simpl;
      solve [ left; (split; [reflexivity|]);
              (split; [intros _; eexists; reflexivity|discriminate])
            | right; eexists; repeat split; reflexivity ]. }
  destruct (is_cat cat "SCRAPE_ETH") eqn:H6.
  { intros H. simpl in H.
    repeat case_match; simplify_eq; simpl;
      solve [ left; (split; [reflexivity|]);
              (split; [intros _; eexists; reflexivity|discriminate])
            | right; eexists; repeat split; reflexivity ]. }
  simpl orb.
  destruct (is_cat cat "NEWS_SCRAPER") eqn:H7.
  { intros H. simplify_eq. left. simpl. split; [reflexivity|].
    split; [intros _; eexists; reflexivity|discriminate]. }
  destruct (is_cat cat "SEND_TO_LLM") eqn:H8.
  { intros H. simplify_eq. left. simpl. split; [reflexivity|].
    split; [intros _; eexists; reflexivity|discriminate]. }
  destruct (is_cat cat "RISK_ANALYSIS") eqn:H9.
  { intros H.
    destruct (risk_analysis W (vars c) (riskInputs data)) as [x|e|] eqn:Hr.
    - simplify_eq. left. simpl. split; [reflexivity|].
      split; [intros _; eexists; reflexivity|discriminate].
    - simplify_eq. right. eexists. repeat split; reflexivity.
    - exfalso. unfold risk_analysis in Hr.
      pose proof (risk_loop_returns W (vars c) (riskInputs data) 0 0) as Hl.
      destruct (risk_loop W (vars c) (riskInputs data) 0 0) as [[a b]|e|];
        simpl in Hr; congruence. }
  destruct (is_cat cat "BUY") eqn:H10.
  { intros H. simpl in H. apply trade_outcome in H as [(-> & _ & Hl)|(e & -> & Hrest)].
    - left. split; [reflexivity|]. split; [intros _; exact Hl|discriminate].
    - right. exists e. split; [reflexivity|]. split; [reflexivity|exact Hrest]. }
  destruct (is_cat cat "SELL") eqn:H11.
  { intros H. simpl in H. apply trade_outcome in H as [(-> & _ & Hl)|(e & -> & Hrest)].
    - left. split; [reflexivity|]. split; [intros _; exact Hl|discriminate].
    - right. exists e. split; [reflexivity|]. split; [reflexivity|exact Hrest]. }
  simpl orb.
  destruct (is_cat cat "OUTPUT") eqn:H12.
  { intros H. simplify_eq. left. simpl. split; [reflexivity|].
    split; [intros _; eexists; reflexivity|discriminate]. }
  intros H. simplify_eq. left. split; [reflexivity|]. split; [discriminate|reflexivity].
Qed.

Lemma dispatch_logs_one_line_or_raises_witness :
  snd (dispatch offline (Some "HOLD") (plain "HOLD") holding_seven) = holding_seven.
Proof.
  destruct (dispatch_logs_one_line_or_raises offline (Some "HOLD") (plain "HOLD")
              holding_seven
              (snd (dispatch offline (Some "HOLD") (plain "HOLD") holding_seven))
              (fst (dispatch offline (Some "HOLD") (plain "HOLD") holding_seven))
              eq_refl eq_refl)
    as [(_ & _ & Hsame)|(e & He & _)]; [exact (Hsame eq_refl)|discriminate He].
Defined.

(** ** What a walk visits *)

Section Reach.
Context (W : Runtime) (nodes : list Node) (edges : list Edge).

Lemma outgoing_handles_target (id : string) (th : string * option string) :
  In th (outgoing_handles edges id) -> In (fst th) (outgoing edges id).
Proof.
  unfold outgoing_handles, outgoing. rewrite !in_map_iff.
  intros (e & <- & He). exists e. now split.
Qed.

(** What a loop adds to [visited] is reached from one of the roots of its
    iterations. *)
Lemma for_each_reached {A : Type} (root : A -> string)
    (body : A -> St -> Res unit * St) :
  (forall x st r st', body x st = (r, st') ->
     forall t, t ∈ visited st' -> (t ∈ visited st) \/ reaches edges (root x) t) ->
  forall l st r st', for_each body l st = (r, st') ->
    forall t, t ∈ visited st' ->
      (t ∈ visited st) \/ exists x, In x l /\ reaches edges (root x) t.
Proof.
  intros Hb l. induction l as [|x l IH]; intros st r st' H t Ht.
  - simpl in H. simplify_eq. now left.
  - rewrite for_each_cons in H.
    destruct (body x st) as [r1 st1] eqn:Hx.
    assert ((t ∈ visited st1) -> (t ∈ visited st) \/
            exists y, In y (x :: l) /\ reaches edges (root y) t) as H1.
    { intros Ht1. destruct (Hb _ _ _ _ Hx t Ht1) as [?|?]; [now left|].
      right. exists x. split; [now left|assumption]. }
    destruct r1 as [[]|e|]; [|simplify_eq; auto|simplify_eq; auto].
    destruct (IH _ _ _ H t Ht) as [Ht1|(y & Hy & Hr)]; [auto|].
    right. exists y. split; [now right|exact Hr].
Qed.

Lemma execute_from_node_reached (fuel : nat) :
  forall id st r st', execute_from_node W nodes edges fuel id st = (r, st') ->
    forall t, t ∈ visited st' -> (t ∈ visited st) \/ reaches edges id t.
Proof.
  induction fuel as [|fuel IH]; intros id st r st' H t Ht.
  - rewrite execute_from_node_O in H. simplify_eq. now left.
  - rewrite execute_from_node_S in H. unfold visit in H.
    destruct (decide (id ∈ visited st)) as [Hin|Hin]; [simplify_eq; now left|].
    assert (forall s2, (t ∈ visited s2) ->
              ((t ∈ {[id]} ∪ visited st) \/
               exists x, In x (outgoing edges id) /\ reaches edges x t) ->
              (t ∈ visited st) \/ reaches edges id t) as Hfin.
    { intros s2 _ [Hs|(x & Hx & Hr)].
      - apply elem_of_union in Hs as [Hs|Hs]; [|now left].
        apply elem_of_singleton in Hs. subst. right. apply rtc_refl.
      - right. eapply rtc_l; [exact Hx|exact Hr]. }
    destruct (node_map nodes !! id) as [n|]; [|simplify_eq; eapply Hfin; eauto].
    destruct (is_cat (category (n_data n)) "CONDITION").
    + destruct (strip (default "" (condition (n_data n)))) as [|ch cond'];
        [simplify_eq; eapply Hfin; eauto|].
      destruct (evaluate_condition W fuel _ _) as [result|e|];
        [|simplify_eq; eapply Hfin; eauto|simplify_eq; eapply Hfin; eauto].
      match type of H with context [for_each ?b ?l ?s] =>
        destruct (for_each b l s) as [r2 st2] eqn:Hloop end.
      assert (t ∈ visited st2) as Ht2 by (destruct r2 as [[]|e|]; now simplify_eq).
      apply (for_each_reached fst) with (t := t) in Hloop; [|clear Hloop|exact Ht2].
      * apply (Hfin st2 Ht2). destruct Hloop as [?|(x & Hx & Hr)]; [now left|].
        right. exists (fst x). split; [now apply outgoing_handles_target|exact Hr].
      * intros [tg h] s1 r1 s1' Hb u Hu. unfold branch in Hb. simpl.
        repeat case_match; simplify_eq; eauto.
    + destruct (dispatch W _ _ _) as [r1 c1].
      destruct r1 as [[]|e|]; [|simplify_eq; eapply Hfin; eauto|simplify_eq; eapply Hfin; eauto].
      apply (for_each_reached (fun x => x)) with (t := t) in H; [|exact IH|exact Ht].
      now apply (Hfin st' Ht).
Qed.

Hypothesis no_condition :
  forall n, In n nodes -> is_cat (category (n_data n)) "CONDITION" = false.

(** In a graph without CONDITION nodes, a call that returns normally has
    walked all the successors of every node it has added to [visited]. *)
Lemma execute_from_node_closed (fuel : nat) :
  forall id st st', execute_from_node W nodes edges fuel id st = (Ok tt, st') ->
    forall v, v ∈ visited st' -> v ∉ visited st ->
      forall t, edge_to edges v t -> t ∈ visited st'.
Proof.
  induction fuel as [|fuel IH]; intros id st st' H v Hv Hnv t Ht.
  - rewrite execute_from_node_O in H. discriminate.
  - rewrite execute_from_node_S in H. unfold visit in H.
    destruct (decide (id ∈ visited st)) as [Hin|Hin]; [now simplify_eq|].
    destruct (node_map nodes !! id) as [n|] eqn:Hn; [|discriminate].
    apply node_map_In in Hn as [Hn _]. rewrite (no_condition n Hn) in H.
    destruct (dispatch W _ _ _) as [r1 c1].
    destruct r1 as [[]|e|]; [|discriminate|discriminate].
    destruct fuel as [|fuel].
    { destruct (outgoing edges id) as [|x l] eqn:Hout.
      - simpl in H. simplify_eq. simpl in Hv.
        apply elem_of_union in Hv as [Hv|Hv]; [|contradiction].
        apply elem_of_singleton in Hv. subst v. unfold edge_to in Ht.
        rewrite Hout in Ht. destruct Ht.
      - rewrite for_each_cons, execute_from_node_O in H. discriminate. }
    set (s1 := {| ctx := c1; visited := {[id]} ∪ visited st |}) in *.
    assert (forall l sA s2,
               for_each (execute_from_node W nodes edges (S fuel)) l sA = (Ok tt, s2) ->
               forall v, v ∈ visited s2 -> v ∉ visited sA ->
                 forall t, edge_to edges v t -> t ∈ visited s2) as Hloop.
    { clear - IH. induction l as [|x l IHl]; intros sA s2 H v Hv Hnv t Ht.
      - simpl in H. now simplify_eq.
      - rewrite for_each_cons in H.
        destruct (execute_from_node W nodes edges (S fuel) x sA) as [r1 sB] eqn:Hx.
        destruct r1 as [[]|e|]; [|discriminate|discriminate].
        destruct (decide (v ∈ visited sB)) as [HvB|HvB].
        + assert (t ∈ visited sB) as HtB by (eapply IH; eassumption).
          assert (extends sB s2) as [Hsub _]; [|now apply Hsub].
          eapply (for_each_preserves extends);
            [apply extends_refl|apply extends_trans| |exact H].
          apply execute_from_node_extends.
        + eapply IHl; eassumption. }
    destruct (decide (v ∈ visited s1)) as [Hv1|Hv1]; [|eapply Hloop; eassumption].
    simpl in Hv1. apply elem_of_union in Hv1 as [Hv1|Hv1]; [|contradiction].
    apply elem_of_singleton in Hv1. subst v.
    eapply for_each_marks; [exact H|exact Ht].
Qed.

(** In a graph without CONDITION nodes, a walk that returns normally has
    visited whatever is reached from a node it has visited. *)
Lemma execute_from_node_reaches_all (fuel : nat) (id : string) (c : TradingContext)
    (st' : St) :
  execute_from_node W nodes edges fuel id {| ctx := c; visited := ∅ |} = (Ok tt, st') ->
  forall v t, v ∈ visited st' -> reaches edges v t -> t ∈ visited st'.
Proof.
  intros H v t Hv Hr. induction Hr as [v|v u t Hvu _ IH]; [exact Hv|].
  apply IH. eapply execute_from_node_closed; [exact H|exact Hv| |exact Hvu].
  simpl. apply not_elem_of_empty.
Qed.

End Reach.

(** X15.  What a walk adds to [visited] is reached from its first node
    along the edges, on every graph and whatever the outcome.  On a graph
    without CONDITION nodes, a walk from a START node that returns
    normally has visited exactly the nodes reached from that node: a
    cycle is walked once around, and a node that no path leads to is not
    dispatched. *)
Theorem walk_visits_the_reachable_nodes :
  forall (W : Runtime) (nodes : list Node) (edges : list Edge) (fuel : nat)
         (s : string) (c : TradingContext) (r : Res unit) (st' : St),
    execute_from_node W nodes edges fuel s {| ctx := c; visited := ∅ |} = (r, st') ->
    (forall t, t ∈ visited st' -> reaches edges s t)
    /\ ((forall n, In n nodes -> is_cat (category (n_data n)) "CONDITION" = false) ->
        r = Ok tt ->
        forall t, t ∈ visited st' <-> reaches edges s t).
Proof.
  intros W nodes edges fuel s c r st' H.
  assert (forall t, t ∈ visited st' -> reaches edges s t) as Hsound.
  { intros t Ht.
    destruct (execute_from_node_reached W nodes edges fuel _ _ _ _ H t Ht) as [Hin|Hr];
      [|exact Hr].
    simpl in Hin. now apply not_elem_of_empty in Hin. }
  split; [exact Hsound|].
  intros Hnc -> t. split; [apply Hsound|].
  intros Hr.
  eapply (execute_from_node_reaches_all W nodes edges Hnc); [exact H| |exact Hr].
  destruct fuel as [|fuel]; [rewrite execute_from_node_O in H; discriminate|].
  eapply execute_from_node_marks; exact H.
Qed.

Lemma walk_visits_the_reachable_nodes_witness :
  ("C" ∈ visited (snd (execute_from_node offline cycle_nodes cycle_edges 4 "A" fresh))
   <-> reaches cycle_edges "A" "C")
  /\ ("D" ∈ visited (snd (execute_from_node offline cycle_nodes cycle_edges 4 "A" fresh))
      <-> reaches cycle_edges "A" "D").
Proof.
  split;
    (apply (proj2 (walk_visits_the_reachable_nodes offline cycle_nodes cycle_edges 4 "A"
                     TradingContext_init (Ok tt)
                     (snd (execute_from_node offline cycle_nodes cycle_edges 4 "A" fresh))
                     eq_refl)); [|reflexivity];
     intros n [<-|[<-|[<-|[<-|[]]]]]; reflexivity).
Defined.

Example cycle_is_walked_once_and_D_is_not_reached :
  logs (snd (run_algo offline 4 {| nodes := cycle_nodes; edges := cycle_edges |})) =
    [ start_line; LogLine "OUTPUT" [Txt "b"; Txt " => "; FVal (PStr "NULL")];
      LogLine "OUTPUT" [Txt "c"; Txt " => "; FVal (PStr "NULL")] ].
Proof. reflexivity. Qed.

(** ** The pipe between two nodes *)

Lemma is_cat_other (s x : string) : s <> x -> is_cat (Some s) x = false.
Proof. intros H. simpl. now apply String.eqb_neq. Qed.

(** X16.  After a dispatch that returns, [last_output] is empty when the
    category is START, VARIABLE, BUY, SELL or OUTPUT, a number when it is
    MATH, SET_BUDGET, SCRAPE_BTC, SCRAPE_ETH, SEND_TO_LLM or
    RISK_ANALYSIS, and one of the three headlines when it is NEWS_SCRAPER.
    So a VARIABLE node dispatched right after a node that empties the pipe
    stores nothing (it logs a warning and the variables stay as they are),
    and a trade dispatched there trades at the price 0. *)
Theorem last_output_after_dispatch :
  forall (W : Runtime) (cat : option string) (data : NodeData) (c c' : TradingContext),
    dispatch W cat data c = (Ok tt, c') ->
    (clears_output cat = true ->
     last_output c' = PNone
     /\ price_of (last_output c') = 0%float
     /\ forall data2, exists line,
          dispatch W (Some "VARIABLE") data2 c' =
            (Ok tt, set_last_output PNone (log "VARIABLE" [Txt line] c'))
          \/ exists name, dispatch W (Some "VARIABLE") data2 c' =
            (Ok tt, set_last_output PNone
                      (log "VARIABLE" [Txt line; Txt name; Txt "'"] c')))
    /\ (yields_number cat = true -> exists x, last_output c' = PNum x)
    /\ (is_cat cat "NEWS_SCRAPER" = true ->
        exists s, last_output c' = PStr s /\ In s news).
Proof.
  intros W cat data c c' H.
  assert (last_output c' = PNone ->
          last_output c' = PNone
          /\ price_of (last_output c') = 0%float
          /\ forall data2, exists line,
               dispatch W (Some "VARIABLE") data2 c' =
                 (Ok tt, set_last_output PNone (log "VARIABLE" [Txt line] c'))
               \/ exists name, dispatch W (Some "VARIABLE") data2 c' =
                 (Ok tt, set_last_output PNone
                           (log "VARIABLE" [Txt line; Txt name; Txt "'"] c'))) as Hclear.
  { intros Hl. split; [exact Hl|]. split; [now rewrite Hl|].
    intros data2. unfold dispatch. simpl is_cat. cbv iota. rewrite Hl.
    destruct (strip (default "" (variableName data2))) as [|ch nm].
    - eexists. left. reflexivity.
    - eexists. right. eexists. reflexivity. }
  unfold clears_output, yields_number. simpl existsb.
  destruct cat as [s|]; [|simpl; repeat split; discriminate].
  unfold dispatch in H.
  destruct (String.eqb_spec s "START") as [->|N1].
  { simpl in H. simplify_eq. simpl. repeat split; try discriminate. now apply Hclear. }
  rewrite ?(is_cat_other _ _ N1), ?(proj2 (String.eqb_neq _ _) N1) in *.
  destruct (String.eqb_spec s "VARIABLE") as [->|N2].
  { simpl is_cat in *. cbv iota in H. simpl.
    split; [intros _; apply Hclear|split; discriminate].
    repeat case_match; now simplify_eq. }
  rewrite ?(is_cat_other _ _ N2), ?(proj2 (String.eqb_neq _ _) N2) in *.
  destruct (String.eqb_spec s "MATH") as [->|N3].
  { simpl is_cat in *. cbv iota in H. simpl.
    split; [discriminate|]. split; [intros _|discriminate].
    repeat case_match; simplify_eq; eexists; reflexivity. }
  rewrite ?(is_cat_other _ _ N3), ?(proj2 (String.eqb_neq _ _) N3) in *.
  destruct (String.eqb_spec s "SET_BUDGET") as [->|N4].
  { simpl is_cat in *. cbv iota in H. simpl.
    split; [discriminate|]. split; [intros _|discriminate].
    repeat case_match; simplify_eq; eexists; reflexivity. }
  rewrite ?(is_cat_other _ _ N4), ?(proj2 (String.eqb_neq _ _) N4) in *.
  destruct (String.eqb_spec s "SCRAPE_BTC") as [->|N5].
  { simpl is_cat in *. simpl orb in H. cbv iota in H. simpl.
    split; [discriminate|]. split; [intros _|discriminate].
    repeat case_match; simplify_eq; eexists; reflexivity. }
  rewrite ?(is_cat_other _ _ N5), ?(proj2 (String.eqb_neq _ _) N5) in *.
  destruct (String.eqb_spec s "SCRAPE_ETH") as [->|N6].
  { simpl is_cat in *. simpl orb in H. cbv iota in H. simpl.
    split; [discriminate|]. split; [intros _|discriminate].
    repeat case_match; simplify_eq; eexists; reflexivity. }
  rewrite ?(is_cat_other _ _ N6), ?(proj2 (String.eqb_neq _ _) N6) in *. simpl orb in *. cbv iota in H.
  destruct (String.eqb_spec s "NEWS_SCRAPER") as [->|N7].
  { simpl is_cat in *. cbv iota in H.
    assert (headline_index W c mod 3 < 3)%nat as Hlt
      by (apply Nat.mod_upper_bound; discriminate).
    revert H Hlt. generalize (headline_index W c mod 3). intros i H Hlt.
    simplify_eq.
    split; [discriminate|]. split; [discriminate|]. intros _.
    eexists. split; [reflexivity|].
    destruct i as [|[|[|k]]]; simpl; auto. lia. }
  rewrite ?(is_cat_other _ _ N7), ?(proj2 (String.eqb_neq _ _) N7) in *.
  destruct (String.eqb_spec s "SEND_TO_LLM") as [->|N8].
  { simpl is_cat in *. cbv iota in H. simplify_eq. simpl.
    split; [discriminate|]. split; [intros _|discriminate]. eexists; reflexivity. }
  rewrite ?(is_cat_other _ _ N8), ?(proj2 (String.eqb_neq _ _) N8) in *.
  destruct (String.eqb_spec s "RISK_ANALYSIS") as [->|N9].
  { simpl is_cat in *. cbv iota in H. simpl.
    split; [discriminate|]. split; [intros _|discriminate].
    repeat case_match; simplify_eq; eexists; reflexivity. }
  rewrite ?(is_cat_other _ _ N9), ?(proj2 (String.eqb_neq _ _) N9) in *.
  destruct (String.eqb_spec s "BUY") as [->|N10].
  { simpl is_cat in *. simpl orb in H. cbv iota in H. simpl.
    split; [intros _; apply Hclear|split; discriminate].
    apply trade_outcome in H as [(_ & Hl & _)|(e & He & _)]; [exact Hl|discriminate]. }
  rewrite ?(is_cat_other _ _ N10), ?(proj2 (String.eqb_neq _ _) N10) in *.
  destruct (String.eqb_spec s "SELL") as [->|N11].
  { simpl is_cat in *. simpl orb in H. cbv iota in H. simpl.
    split; [intros _; apply Hclear|split; discriminate].
    apply trade_outcome in H as [(_ & Hl & _)|(e & He & _)]; [exact Hl|discriminate]. }
  rewrite ?(is_cat_other _ _ N11), ?(proj2 (String.eqb_neq _ _) N11) in *. simpl orb in *. cbv iota in H.
  destruct (String.eqb_spec s "OUTPUT") as [->|N12].
  { simpl is_cat in *. cbv iota in H. simplify_eq. simpl.
    split; [intros _; now apply Hclear|split; discriminate]. }
  rewrite ?(is_cat_other _ _ N12), ?(proj2 (String.eqb_neq _ _) N12) in *. simpl.
  repeat split; discriminate.
Qed.

Lemma last_output_after_dispatch_witness :
  exists x,
    last_output (snd (dispatch offline (Some "SET_BUDGET") (budget_of 100)
                        TradingContext_init)) = PNum x.
Proof.
  exact (proj1 (proj2 (last_output_after_dispatch offline (Some "SET_BUDGET")
                         (budget_of 100) TradingContext_init _ eq_refl)) eq_refl).
Defined.

(** ** A placeholder without a variable *)

Lemma replace_variables_missing (W : Runtime) (vs : gmap string pyval)
    (pre name post : string) :
  all_chars (fun c => negb (Ascii.eqb c "{")) pre = true ->
  all_chars is_word name = true ->
  name <> "" ->
  vs !! name = None ->
  replace_variables W (pre +:+ "{" +:+ name +:+ "}" +:+ post) vs =
    Error ("Variable '" +:+ name +:+ "' not found").
Proof.
  intros Hpre Hname Hne Hvs. unfold replace_variables.
  rewrite (replace_variables_copy W vs pre _ Hpre).
  rewrite !append_cons, !append_nil, replace_variables_from_head. unfold m_var.
  rewrite (span_all is_word name (String "}" post) Hname eq_refl).
  destruct name as [|ch name]; [congruence|].
  now rewrite Hvs.
Qed.

(** X17.  A placeholder [{name}] whose name is not a variable, the first
    placeholder of the text, makes [evaluate_math] and
    [evaluate_condition] fail with a message that names the variable,
    whatever follows the placeholder: the exclusive-or loop is not
    entered, so the failure does not depend on the fuel.  A MATH node
    with such an expression logs the message as an ERROR line, puts 0 in
    [last_output] and returns. *)
Theorem missing_variable_is_reported_by_name :
  forall (W : Runtime) (vs : gmap string pyval) (pre name post : string),
    all_chars (fun c => negb (Ascii.eqb c "{")) pre = true ->
    all_chars is_word name = true ->
    name <> "" ->
    vs !! name = None ->
    let text := pre +:+ "{" +:+ name +:+ "}" +:+ post in
    evaluate_math W text vs =
      Error ("Math evaluation error: Variable '" +:+ name +:+ "' not found")
    /\ (forall fuel,
          evaluate_condition W fuel text vs =
            Raise (ValueError
                     ("Condition evaluation error: Variable '" +:+ name +:+ "' not found")))
    /\ (forall data c,
          strip (default "" (expression data)) = text ->
          vars c = vs ->
          dispatch W (Some "MATH") data c =
            (Ok tt, set_last_output (PNum 0%float)
                      (log "MATH"
                         [Txt "ERROR: ";
                          Txt ("Math evaluation error: Variable '" +:+ name +:+ "' not found")]
                         c))).
Proof.
  intros W vs pre name post Hpre Hname Hne Hvs text.
  pose proof (replace_variables_missing W vs pre name post Hpre Hname Hne Hvs) as Hr.
  fold text in Hr.
  assert (evaluate_math W text vs =
            Error ("Math evaluation error: Variable '" +:+ name +:+ "' not found")) as Hm.
  { unfold evaluate_math. now rewrite Hr. }
  split; [exact Hm|]. split.
  - intros fuel. unfold evaluate_condition. now rewrite Hr.
  - intros data c Htext Hvars. unfold dispatch. simpl is_cat. cbv iota.
    rewrite Htext, Hvars, Hm.
    destruct text as [|ch rest] eqn:Ht; [|reflexivity].
    exfalso. subst text. destruct pre; discriminate.
Qed.

Lemma missing_variable_is_reported_by_name_witness :
  evaluate_condition offline 0 "{x} ^^ b ^^ c" ∅ =
    Raise (ValueError "Condition evaluation error: Variable 'x' not found").
Proof.
  exact (proj1 (proj2 (missing_variable_is_reported_by_name offline ∅ "" "x" " ^^ b ^^ c"
                         eq_refl eq_refl ltac:(discriminate) eq_refl)) 0%nat).
Defined.

(** ** One exclusive-or *)

Lemma operand_char_plain (c : ascii) :
  is_operand_char c = true ->
  Ascii.eqb c "(" = false /\ is_space c = false /\ Ascii.eqb c "^" = false.
Proof.
  destruct c as [[] [] [] [] [] [] [] []]; vm_compute; intros H;
    repeat split; congruence.
Qed.

Lemma space_char_plain (c : ascii) :
  is_space c = true -> is_operand_char c = false.
Proof.
  destruct c as [[] [] [] [] [] [] [] []]; vm_compute; intros H; congruence.
Qed.

Lemma operand_no_caret (w : string) :
  all_chars is_operand_char w = true -> no_caret w = true.
Proof.
  unfold all_chars, no_caret. induction w as [|c w IH]; [reflexivity|].
  simpl. intros H. apply andb_prop in H as [Hc Hw].
  rewrite (IH Hw). apply operand_char_plain in Hc as (_ & _ & ->). reflexivity.
Qed.

Lemma prefix_here (needle b : string) : String.prefix needle (needle +:+ b) = true.
Proof.
  induction needle as [|x n IH]; [now destruct b|].
  rewrite append_cons. simpl. destruct (ascii_dec x x); [exact IH|congruence].
Qed.

Lemma contains_here (needle a b : string) :
  contains needle (a +:+ needle +:+ b) = true.
Proof.
  induction a as [|c a IH].
  - rewrite append_nil. pose proof (prefix_here needle b) as H.
    destruct (needle +:+ b); cbn [contains]; now rewrite H.
  - rewrite append_cons. simpl. rewrite IH. apply orb_true_r.
Qed.

Lemma string_drop_app (a r : string) (n : nat) :
  string_drop (String.length a + n) (a +:+ r) = string_drop n r.
Proof. induction a as [|c a IH]; [reflexivity|]. rewrite append_cons. exact IH. Qed.

Lemma string_drop_all (s : string) : string_drop (String.length s) s = "".
Proof. induction s as [|c s IH]; [reflexivity|exact IH]. Qed.

Lemma length_append (a b : string) :
  String.length (a +:+ b) = (String.length a + String.length b)%nat.
Proof. induction a as [|c a IH]; [reflexivity|]. rewrite append_cons. simpl. now rewrite IH. Qed.

(** A run of operand characters followed by a character outside the class
    (or by nothing) is one operand of the pattern. *)
Lemma xor_operand_word (w rest : string) :
  all_chars is_operand_char w = true ->
  w <> "" ->
  match rest with String c _ => is_operand_char c = false | EmptyString => True end ->
  xor_operand (w +:+ rest) = Some (w, rest).
Proof.
  intros Hw Hne Hrest. unfold xor_operand.
  rewrite (span_all is_operand_char w rest Hw Hrest).
  destruct w as [|c w]; [congruence|]. rewrite append_cons.
  unfold all_chars in Hw. simpl in Hw. apply andb_prop in Hw as [Hc _].
  apply operand_char_plain in Hc as (Hc & _ & _).
  destruct c as [[] [] [] [] [] [] [] []]; try reflexivity; discriminate.
Qed.

(** X18.  One exclusive-or between two plain operands (non-empty runs of
    letters, digits, underscores and dots), with any white space around
    the [^^], is rewritten in one iteration of the loop into
    [(bool(a) != bool(b))], and the loop ends there: [xor_loop] returns
    with any fuel of at least one. *)
Theorem single_xor_is_rewritten_once :
  forall (a ws1 ws2 b : string) (fuel : nat),
    all_chars is_operand_char a = true -> a <> "" ->
    all_chars is_operand_char b = true -> b <> "" ->
    all_chars is_space ws1 = true ->
    all_chars is_space ws2 = true ->
    re_sub_first m_xor (a +:+ ws1 +:+ "^^" +:+ ws2 +:+ b) =
      "(bool(" +:+ a +:+ ") != bool(" +:+ b +:+ "))"
    /\ xor_loop (S fuel) (a +:+ ws1 +:+ "^^" +:+ ws2 +:+ b) =
         Some ("(bool(" +:+ a +:+ ") != bool(" +:+ b +:+ "))").
Proof.
  intros a ws1 ws2 b fuel Ha Hane Hb Hbne Hw1 Hw2.
  assert (match b with String c _ => is_space c = false | EmptyString => True end) as Hb0.
  { destruct b as [|c b]; [exact I|]. unfold all_chars in Hb. simpl in Hb.
    apply andb_prop in Hb as [Hc _]. now apply operand_char_plain in Hc as (_ & ? & _). }
  assert (match ws1 +:+ "^^" +:+ ws2 +:+ b with
          | String c _ => is_operand_char c = false
          | EmptyString => True
          end) as Hr1.
  { destruct ws1 as [|c ws1]; [reflexivity|]. rewrite append_cons.
    unfold all_chars in Hw1. simpl in Hw1. apply andb_prop in Hw1 as [Hc _].
    now apply space_char_plain. }
  assert (m_xor (a +:+ ws1 +:+ "^^" +:+ ws2 +:+ b) =
            Some ("(bool(" +:+ a +:+ ") != bool(" +:+ b +:+ "))",
                  String.length a + String.length ws1 + 2
                  + String.length ws2 + String.length b)%nat) as Hm.
  { unfold m_xor. rewrite (xor_operand_word a _ Ha Hane Hr1).
    rewrite (span_all is_space ws1 ("^^" +:+ ws2 +:+ b) Hw1 eq_refl).
    rewrite !append_cons, append_nil.
    rewrite (span_all is_space ws2 b Hw2 Hb0).
    rewrite <- (append_nil_r b) at 1.
    now rewrite (xor_operand_word b "" Hb Hbne I). }
  assert (re_sub_first m_xor (a +:+ ws1 +:+ "^^" +:+ ws2 +:+ b) =
            "(bool(" +:+ a +:+ ") != bool(" +:+ b +:+ "))") as Hsub.
  { assert (exists c rest, a +:+ ws1 +:+ "^^" +:+ ws2 +:+ b = String c rest)
      as (c & rest & Hrest).
    { destruct a as [|c a']; [congruence|]. rewrite append_cons. eauto. }
    rewrite Hrest in Hm |- *. simpl re_sub_first. rewrite Hm. rewrite <- Hrest.
    replace (String.length a + String.length ws1 + 2 + String.length ws2 + String.length b)%nat
      with (String.length a + (String.length ws1 + (2 + (String.length ws2
            + (String.length b + 0)))))%nat by lia.
    rewrite string_drop_app, string_drop_app.
    change (string_drop (2 + (String.length ws2 + (String.length b + 0)))
              ("^^" +:+ ws2 +:+ b))
      with (string_drop (String.length ws2 + (String.length b + 0)) (ws2 +:+ b)).
    rewrite string_drop_app, Nat.add_0_r, string_drop_all.
    now rewrite append_nil_r. }
  split; [exact Hsub|].
  rewrite xor_loop_step
    by (rewrite <- (append_assoc a ws1); apply contains_here).
  rewrite Hsub. apply xor_loop_done, no_caret_contains.
  rewrite !no_caret_app, (operand_no_caret a Ha), (operand_no_caret b Hb). reflexivity.
Qed.

Lemma single_xor_is_rewritten_once_witness :
  xor_loop 1 "x_1  ^^y.z" = Some "(bool(x_1) != bool(y.z))".
Proof.
  exact (proj2 (single_xor_is_rewritten_once "x_1" "  " "" "y.z" 0
                  eq_refl ltac:(discriminate) eq_refl ltac:(discriminate)
                  eq_refl eq_refl)).
Defined.
